(** * Payment reconciliation (Mollie plugin) and promotion cache of Vendure

    A shallow embedding of two services of the repository:

    - [MollieService] (src/unnamed/part_000): [createPaymentIntent],
      [handleMollieStatusUpdate], [addPayment], [settleExistingPayment],
      [getEnabledPaymentMethods] and the private helpers;
    - [PromotionService] (src/server/src/service/services/promotion.service.ts):
      [createPromotion], [updatePromotion], [updatePromotions],
      [getActivePromotions], [getAdjustmentOperations], [parseOperationArgs].

    Both services are orchestration code: they call into collaborators (the
    order service, the payment-method service, the entity hydrator, the Mollie
    client, the database connection).  A service method is embedded as a
    computation that, from a state of the collaborators, yields a result or a
    thrown error, the next state, and the chronological list of the calls and
    log lines it issued.  What a collaborator answers is a parameter. *)

From Stdlib Require Import ZArith Ascii String List Bool Lia.
From stdpp Require Import base option list strings gmap.
Import ListNotations.

Local Open Scope string_scope.
Local Open Scope Z_scope.

(** ** JavaScript values used by both services *)

(** Truthiness of a [string | undefined]: [undefined] and the empty string are
    falsy. *)
Definition truthy (v : option string) : bool :=
  match v with
  | Some s => negb (String.eqb s "")
  | None => false
  end.

(** [s.endsWith('/') ? s.slice(0, -1) : s] *)
Fixpoint stripTrailingSlash (s : string) : string :=
  match s with
  | EmptyString => EmptyString
  | String c EmptyString => if Ascii.eqb c "/"%char then EmptyString else s
  | String c rest => String c (stripTrailingSlash rest)
  end.

(** [s.endsWith('/')] *)
Fixpoint endsWithSlash (s : string) : bool :=
  match s with
  | EmptyString => false
  | String c EmptyString => Ascii.eqb c "/"%char
  | String _ rest => endsWithSlash rest
  end.

Module Mollie.

(** ** Data model *)

Definition ID := string.

(** [OrderStatus] of the Mollie client. *)
Inductive OrderStatus :=
| created | paid | authorized | canceled | shipping | completed | expired | pending.

Definition OrderStatus_eqb (a b : OrderStatus) : bool :=
  match a, b with
  | created, created | paid, paid | authorized, authorized | canceled, canceled
  | shipping, shipping | completed, completed | expired, expired
  | pending, pending => true
  | _, _ => false
  end.

(** [OrderState] is a string type in the source: the framework's states plus
    the custom states of a project. *)
Definition OrderState := string.

Inductive PaymentStatus := Authorized | Settled.

Record ConfigArg := { arg_name : string; arg_value : string }.

Record PaymentMethod := {
  pm_id : ID;
  pm_code : string;
  pm_handler_code : string;
  pm_handler_args : list ConfigArg;
}.

Record Payment := {
  payment_id : ID;
  transactionId : string;
  payment_amount : Z;
  payment_state : string;
}.

Record Customer := { firstName : string; lastName : string }.

Record Address := {
  streetLine1 : option string;
  city : option string;
  postalCode : option string;
  country : option string;
}.

Record Order := {
  order_id : ID;
  code : string;
  state : OrderState;
  orderPlacedAt : option Z;
  payments : list Payment;
  totalWithTax : Z;
  currencyCode : string;
  customer : option Customer;
  billingAddress : Address;
  shippingAddress : Address;
}.

Record Amount := { amount_value : string; amount_currency : string }.

Record MollieOrder := {
  mo_id : string;
  mo_status : OrderStatus;
  mo_orderNumber : string;
  mo_amount : Amount;
  mo_metadata_languageCode : option string;
  mo_mode : string;
  mo_method : option string;
  mo_profileId : string;
  mo_authorizedAt : option string;
  mo_paidAt : option string;
  mo_checkoutUrl : option string;
}.

(** The fields of a [Partial<MollieOrder>] that [addPayment] reads. *)
Record MollieMetadata := {
  mm_id : option string;
  mm_mode : option string;
  mm_method : option string;
  mm_profileId : option string;
  mm_amount : option Amount;
  mm_authorizedAt : option string;
  mm_paidAt : option string;
}.

Definition metadataOfOrder (m : MollieOrder) : MollieMetadata :=
  {| mm_id := Some (mo_id m);
     mm_mode := Some (mo_mode m);
     mm_method := mo_method m;
     mm_profileId := Some (mo_profileId m);
     mm_amount := Some (mo_amount m);
     mm_authorizedAt := mo_authorizedAt m;
     mm_paidAt := mo_paidAt m |}.

(** [{ method: 'Settled without Mollie' }] *)
Definition settledWithoutMollie : MollieMetadata :=
  {| mm_id := None; mm_mode := None; mm_method := Some "Settled without Mollie";
     mm_profileId := None; mm_amount := None; mm_authorizedAt := None;
     mm_paidAt := None |}.

Record PaymentMetadata := {
  md_amount : Z;
  md_status : PaymentStatus;
  md_orderId : option string;
  md_mode : option string;
  md_method : option string;
  md_profileId : option string;
  md_settlementAmount : option Amount;
  md_authorizedAt : option string;
  md_paidAt : option string;
}.

Record PaymentInput := { pi_method : string; pi_metadata : PaymentMetadata }.

Record RequestContext := {
  apiType : string;
  isAuthorized : bool;
  authorizedAsOwnerOnly : bool;
  channelToken : string;
  languageCode : string;
}.

Record OrderStatusInput := { paymentMethodId : string; orderId : string }.

Record OrderStateTransitionError := {
  te_fromState : string;
  te_toState : string;
  te_message : string;
}.

Record ErrorResult := { errorCode : string; message : string }.

(** ** Thrown errors

    Every [throw Error(...)] of the service, with the values its message
    interpolates.  The names are those of the specification.  [TypeError] is
    what the language throws when a property is read of [undefined]; it
    carries the name of the property. *)
Inductive Error :=
| NoApiKeyError (paymentMethod token : string)
| ProviderFetchError (msg : string)
| OrderNotFoundError (orderNumber mollieId : string)
| StateTransitionError (orderCode : string) (e : OrderStateTransitionError)
| PaymentAttachError (orderCode msg : string)
| PaymentNotFoundError (mollieOrderId orderCode : string)
| SettlementError (paymentId orderCode : string) (e : ErrorResult)
| UnhandledTransitionError (status : OrderStatus) (orderCode : string)
    (orderState : OrderState)
| NoCheckoutUrlError
| TypeError (readOfUndefined : string)
| ProviderCreateError (msg : string)
| StateMachineError (msg : string).

(** ** Log lines *)
Inductive LogLevel := LInfo | LWarn | LError.

Inductive LogMsg :=
| MsgReceivedStatusUpdate (token orderId : string)
| MsgNoPaymentMethodFound (paymentMethodId : string)
| MsgProcessingStatus (status : OrderStatus) (orderNumber token orderId : string)
| MsgIgnoringStatus (status : OrderStatus) (orderCode : string)
| MsgAlreadyPaid (orderCode mollieId : string)
| MsgNoNeedForHandling (orderCode : string) (orderState : OrderState)
    (status : OrderStatus)
| MsgAutoCapturing (orderCode : string)
| MsgNoApiKeyConfigured (paymentMethodCode : string)
| MsgFailedToSaveMollieOrderId (msg : string)
| MsgCreatedMollieOrder (mollieId orderCode : string).

Record EligibleMethod := { em_id : ID; em_isEligible : bool }.

Record MollieAddress := {
  ma_streetAndNumber : string;
  ma_postalCode : string;
  ma_city : string;
  ma_country : string;
}.

Record MolliePaymentIntentInput := {
  in_paymentMethodCode : option string;
  in_molliePaymentMethodCode : option string;
  in_redirectUrl : option string;
  in_orderId : option ID;
}.

Inductive ErrorCode := ORDER_PAYMENT_STATE_ERROR | INELIGIBLE_PAYMENT_METHOD_ERROR.

(** [MolliePaymentIntentResult]: a [url] or one of the two error results that
    the method returns (it does not throw them). *)
Inductive MolliePaymentIntentResult :=
| IntentUrl (url : string)
| IntentError (errorCode : ErrorCode) (message : IntentMessage)
with IntentMessage :=
| MsgMethodCodeNotAllowed (allowed : list string)
| MsgNoActiveOrder
| MsgNoPaymentMethodWithCode (paymentMethodCode : option string)
| MsgNotEligible (paymentMethodCode orderCode : string)
| MsgTransition (msg : string)
| MsgNoFirstName
| MsgNoLastName
| MsgNoRedirect
| MsgPaymentMethodHasNoApiKey (paymentMethodCode : string)
| MsgIncompleteAddress.

Definition PaymentIntentError := IntentError ORDER_PAYMENT_STATE_ERROR.
Definition InvalidInputError := IntentError INELIGIBLE_PAYMENT_METHOD_ERROR.

Section Service.

(** The order lines sent to the provider are built by a helper of the plugin
    that the service only passes on. *)
Variable MollieLine : Type.

Record CreateParameters := {
  cp_orderNumber : string;
  cp_amount : Amount;
  cp_redirectUrl : string;
  cp_webhookUrl : string;
  cp_billingAddress : MollieAddress;
  cp_locale : string;
  cp_lines : list MollieLine;
  cp_metadata_languageCode : string;
  cp_method : option string;
}.

(** ** Calls to collaborators, as they appear in the trace *)
Inductive Event :=
| Log (level : LogLevel) (msg : LogMsg)
| PaymentMethodFindOne (ctx : RequestContext) (id : ID)
| PaymentMethodFindAll (ctx : RequestContext) (codeFilter : option string)
| MollieOrdersGet (apiKey orderId : string)
| MollieOrdersCreate (apiKey : string) (params : CreateParameters)
| OrderFindOneByCode (ctx : RequestContext) (orderCode : string)
| OrderFindOne (ctx : RequestContext) (id : ID)
| GetActiveOrder (ctx : RequestContext)
| GetEligiblePaymentMethods (ctx : RequestContext) (id : ID)
| Hydrate (ctx : RequestContext) (id : ID) (relations : list string)
| StateMachineTransition (ctx : RequestContext) (id : option ID)
    (target : OrderState)
| TransitionToState (ctx : RequestContext) (id : ID) (target : OrderState)
| AddPaymentToOrder (ctx : RequestContext) (id : ID) (input : PaymentInput)
| SettlePayment (ctx : RequestContext) (paymentId : ID)
| UpdateCustomFields (ctx : RequestContext) (id : ID) (mollieOrderId : string).

(** ** Collaborators

    [W] is the state of everything outside the service: the order store and
    the provider.  Reads leave it as it is; the four mutating calls return the
    next state with their answer. *)
Variable W : Type.

Record Collaborators := {
  (* PaymentMethodService *)
  paymentMethodService_findOne : W -> RequestContext -> ID -> option PaymentMethod;
  paymentMethodService_findAll :
    W -> RequestContext -> option string -> list PaymentMethod;
  (* Mollie client; [inl] is a rejected promise *)
  mollie_orders_get : W -> string -> string -> string + MollieOrder;
  mollie_orders_create : W -> string -> CreateParameters -> W * (string + MollieOrder);
  (* OrderService *)
  orderService_findOneByCode : W -> RequestContext -> string -> option Order;
  orderService_findOne : W -> RequestContext -> ID -> option Order;
  orderService_getEligiblePaymentMethods :
    W -> RequestContext -> ID -> list EligibleMethod;
  orderService_transitionToState :
    W -> RequestContext -> ID -> OrderState -> W * (OrderStateTransitionError + Order);
  orderService_addPaymentToOrder :
    W -> RequestContext -> ID -> PaymentInput -> W * (ErrorResult + Order);
  orderService_settlePayment :
    W -> RequestContext -> ID -> W * (ErrorResult + Payment);
  orderService_updateCustomFields :
    W -> RequestContext -> ID -> string -> W * option string;
  (* ActiveOrderService, EntityHydrator, OrderStateMachine *)
  activeOrderService_getActiveOrder : W -> RequestContext -> option Order;
  entityHydrator_hydrate : W -> RequestContext -> Order -> list string -> Order;
  orderStateMachine_transition :
    W -> RequestContext -> option Order -> OrderState -> option string;
  (* helpers of the plugin and of the framework, and plugin options *)
  amountToCents : Amount -> Z;
  toAmount : Z -> string -> Amount;
  toMollieAddress : Address -> option Customer -> option MollieAddress;
  toMollieOrderLines : Order -> Z -> list MollieLine;
  getLocale : string -> string -> string;
  totalCoveredByPayments : Order -> Z;
  allowedMethods : list string;
  options_vendureHost : string;
  molliePaymentHandler_code : string;
}.

Variable C : Collaborators.

(** ** The computation type *)
Inductive Res (A : Type) :=
| Ok (a : A)
| Throw (e : Error).
Arguments Ok {A} a.
Arguments Throw {A} e.

Definition M (A : Type) : Type := W -> Res A * W * list Event.

Definition ret {A} (a : A) : M A := fun w => (Ok a, w, []).
Definition throw {A} (e : Error) : M A := fun w => (Throw e, w, []).
Definition bind {A B} (m : M A) (k : A -> M B) : M B :=
  fun w =>
    match m w with
    | (Ok a, w1, t1) =>
        match k a w1 with
        | (r, w2, t2) => (r, w2, (t1 ++ t2)%list)
        end
    | (Throw e, w1, t1) => (Throw e, w1, t1)
    end.

(** [try { m } catch (e) { h e }] *)
Definition catch {A} (m : M A) (h : Error -> M A) : M A :=
  fun w =>
    match m w with
    | (Ok a, w1, t1) => (Ok a, w1, t1)
    | (Throw e, w1, t1) =>
        match h e w1 with
        | (r, w2, t2) => (r, w2, (t1 ++ t2)%list)
        end
    end.

(** [await Promise.all([m1, m2])]: both calls are issued, in this order, and
    the first rejection is the one that is thrown. *)
Definition promiseAll2 {A B} (m1 : M A) (m2 : M B) : M (A * B) :=
  fun w =>
    match m1 w with
    | (r1, w1, t1) =>
        match m2 w1 with
        | (r2, w2, t2) =>
            (match r1, r2 with
             | Ok a, Ok b => Ok (a, b)
             | Throw e, _ => Throw e
             | Ok _, Throw e => Throw e
             end, w2, (t1 ++ t2)%list)
        end
    end.

Definition emit (e : Event) : M unit := fun w => (Ok tt, w, [e]).
Definition read {A} (e : Event) (f : W -> A) : M A := fun w => (Ok (f w), w, [e]).
Definition call {A} (e : Event) (f : W -> W * A) : M A :=
  fun w => match f w with (w', a) => (Ok a, w', [e]) end.

Definition log (l : LogLevel) (m : LogMsg) : M unit := emit (Log l m).

Notation "x <- m ;; k" := (bind m (fun x => k))
  (at level 100, m at next level, right associativity).
Notation "m ;;; k" := (bind m (fun _ => k))
  (at level 100, right associativity).

(** ** Helpers on JavaScript arrays *)

(** [args.find(a => a.name === name)?.value] *)
Definition findArg (name : string) (args : list ConfigArg) : option string :=
  option_map arg_value (List.find (fun a => String.eqb (arg_name a) name) args).

(** [order.payments.find(p => p.transactionId === id)] *)
Definition findPaymentByTransactionId (id : string) (ps : list Payment)
  : option Payment :=
  List.find (fun p => String.eqb (transactionId p) id) ps.

Definition includesStatus (l : list OrderStatus) (s : OrderStatus) : bool :=
  existsb (OrderStatus_eqb s) l.

Definition includesState (l : list OrderState) (s : OrderState) : bool :=
  existsb (String.eqb s) l.

Definition mollieStatesThatRequireAction : list OrderStatus :=
  [completed; authorized; paid].

Definition vendureStatesThatRequireAction : list OrderState :=
  ["AddingItems"; "ArrangingPayment"; "ArrangingAdditionalPayment";
   "PaymentAuthorized"; "Draft"].

(** [new RequestContext({ apiType: 'admin', isAuthorized: true,
    authorizedAsOwnerOnly: false, channel: ctx.channel, languageCode, req })] *)
Definition adminContext (ctx : RequestContext) (lang : string) : RequestContext :=
  {| apiType := "admin";
     isAuthorized := true;
     authorizedAsOwnerOnly := false;
     channelToken := channelToken ctx;
     languageCode := lang |}.

(** ** [addPayment] (lines 353-392) *)
Definition paymentInput (amount : Z) (mollieMetadata : MollieMetadata)
    (paymentMethodCode : string) (status : PaymentStatus) : PaymentInput :=
  {| pi_method := paymentMethodCode;
     pi_metadata :=
       {| md_amount := amount;
          md_status := status;
          md_orderId := mm_id mollieMetadata;
          md_mode := mm_mode mollieMetadata;
          md_method := mm_method mollieMetadata;
          md_profileId := mm_profileId mollieMetadata;
          md_settlementAmount := mm_amount mollieMetadata;
          md_authorizedAt := mm_authorizedAt mollieMetadata;
          md_paidAt := mm_paidAt mollieMetadata |} |}.

Definition addPayment (ctx : RequestContext) (order : Order) (amount : Z)
    (mollieMetadata : MollieMetadata) (paymentMethodCode : string)
    (status : PaymentStatus) : M Order :=
  (if negb (String.eqb (state order) "ArrangingPayment")
      && negb (String.eqb (state order) "ArrangingAdditionalPayment")
   then
     transitionToStateResult <-
       call (TransitionToState ctx (order_id order) "ArrangingPayment")
            (fun w => orderService_transitionToState C w ctx (order_id order)
                        "ArrangingPayment") ;;
     match transitionToStateResult with
     | inl e => throw (StateTransitionError (code order) e)
     | inr _ => ret tt
     end
   else ret tt) ;;;
  let input := paymentInput amount mollieMetadata paymentMethodCode status in
  addPaymentToOrderResult <-
    call (AddPaymentToOrder ctx (order_id order) input)
         (fun w => orderService_addPaymentToOrder C w ctx (order_id order) input) ;;
  match addPaymentToOrderResult with
  | inr o => ret o
  | inl e => throw (PaymentAttachError (code order) (message e))
  end.

(** ** [settleExistingPayment] (lines 397-413) *)
Definition settleExistingPayment (ctx : RequestContext) (order : Order)
    (mollieOrderId : string) : M unit :=
  order <- read (Hydrate ctx (order_id order) ["payments"])
                (fun w => entityHydrator_hydrate C w ctx order ["payments"]) ;;
  match findPaymentByTransactionId mollieOrderId (payments order) with
  | None => throw (PaymentNotFoundError mollieOrderId (code order))
  | Some payment =>
      result <- call (SettlePayment ctx (payment_id payment))
                     (fun w => orderService_settlePayment C w ctx (payment_id payment)) ;;
      match result with
      | inl e =>
          if truthy (Some (message e))
          then throw (SettlementError (payment_id payment) (code order) e)
          else ret tt
      | inr _ => ret tt
      end
  end.

(** The condition of lines 295-297: the order has been placed and none of its
    payments has the id of the provider order as its transaction id. *)
Definition paidTwice (order : Order) (mollieOrder : MollieOrder) : bool :=
  match orderPlacedAt order with
  | Some _ =>
      match findPaymentByTransactionId (mo_id mollieOrder) (payments order) with
      | None => true
      | Some _ => false
      end
  | None => false
  end.

(** ** [handleMollieStatusUpdate] (lines 241-348)

    [reconcileOrder] is the part of the method from line 282 on: the three
    gates and the decision table, once the payment method, the provider order
    and the local order are at hand. *)
Definition reconcileOrder (ctx : RequestContext) (paymentMethod : PaymentMethod)
    (autoCapture : bool) (mollieOrder : MollieOrder) (order : Order) : M unit :=
  if negb (includesStatus mollieStatesThatRequireAction (mo_status mollieOrder))
  then
    log LInfo (MsgIgnoringStatus (mo_status mollieOrder) (code order))
  else if paidTwice order mollieOrder then
    log LError (MsgAlreadyPaid (code order) (mo_id mollieOrder))
  else if negb (includesState vendureStatesThatRequireAction (state order))
  then
    log LInfo (MsgNoNeedForHandling (code order) (state order) (mo_status mollieOrder))
  else
    let amount := amountToCents C (mo_amount mollieOrder) in
    if OrderStatus_eqb (mo_status mollieOrder) paid then
      addPayment ctx order amount (metadataOfOrder mollieOrder)
                 (pm_code paymentMethod) Settled ;;;
      ret tt
    else if String.eqb (state order) "AddingItems"
            && OrderStatus_eqb (mo_status mollieOrder) authorized then
      order <- addPayment ctx order amount (metadataOfOrder mollieOrder)
                          (pm_code paymentMethod) Authorized ;;
      if autoCapture && OrderStatus_eqb (mo_status mollieOrder) authorized then
        log LInfo (MsgAutoCapturing (code order)) ;;;
        settleExistingPayment ctx order (mo_id mollieOrder)
      else ret tt
    else if String.eqb (state order) "PaymentAuthorized"
            && OrderStatus_eqb (mo_status mollieOrder) completed then
      settleExistingPayment ctx order (mo_id mollieOrder)
    else if autoCapture && OrderStatus_eqb (mo_status mollieOrder) completed then
      ret tt
    else
      throw (UnhandledTransitionError (mo_status mollieOrder) (code order)
                                      (state order)).

(** [args.find(a => a.name === 'autoCapture')?.value === 'true'] *)
Definition autoCaptureOf (paymentMethod : PaymentMethod) : bool :=
  match findArg "autoCapture" (pm_handler_args paymentMethod) with
  | Some v => String.eqb v "true"
  | None => false
  end.

(** The context recreated with the language code of the provider order's
    metadata, when it carries one (lines 261-271). *)
Definition contextFor (ctx : RequestContext) (mollieOrder : MollieOrder)
  : RequestContext :=
  match mo_metadata_languageCode mollieOrder with
  | Some lang =>
      if truthy (Some lang) then adminContext ctx lang else ctx
  | None => ctx
  end.

Definition handleMollieStatusUpdate (ctx : RequestContext)
    (input : OrderStatusInput) : M unit :=
  log LInfo (MsgReceivedStatusUpdate (channelToken ctx) (orderId input)) ;;;
  paymentMethod <-
    read (PaymentMethodFindOne ctx (paymentMethodId input))
         (fun w => paymentMethodService_findOne C w ctx (paymentMethodId input)) ;;
  match paymentMethod with
  | None => log LWarn (MsgNoPaymentMethodFound (paymentMethodId input))
  | Some paymentMethod =>
      let apiKey := findArg "apiKey" (pm_handler_args paymentMethod) in
      let autoCapture := autoCaptureOf paymentMethod in
      match apiKey with
      | None => throw (NoApiKeyError (pm_id paymentMethod) (channelToken ctx))
      | Some key =>
          if negb (truthy (Some key))
          then throw (NoApiKeyError (pm_id paymentMethod) (channelToken ctx))
          else
            fetched <- read (MollieOrdersGet key (orderId input))
                            (fun w => mollie_orders_get C w key (orderId input)) ;;
            match fetched with
            | inl msg => throw (ProviderFetchError msg)
            | inr mollieOrder =>
                let ctx := contextFor ctx mollieOrder in
                log LInfo (MsgProcessingStatus (mo_status mollieOrder)
                             (mo_orderNumber mollieOrder) (channelToken ctx)
                             (orderId input)) ;;;
                found <- read (OrderFindOneByCode ctx (mo_orderNumber mollieOrder))
                              (fun w => orderService_findOneByCode C w ctx
                                          (mo_orderNumber mollieOrder)) ;;
                match found with
                | None =>
                    throw (OrderNotFoundError (mo_orderNumber mollieOrder)
                                              (mo_id mollieOrder))
                | Some order =>
                    reconcileOrder ctx paymentMethod autoCapture mollieOrder order
                end
            end
      end
  end.

(** ** [createPaymentIntent] (lines 80-236) and its private helpers *)

(** [assertFound(p)] is [p] itself: the function of the framework only casts
    the type of the promise, so that what it resolves to may still be
    [undefined]. *)
Definition assertFound {A} (m : M (option A)) : M (option A) := m.

(** [getOrder] (lines 475-484).  With an [orderId], the order is what
    [findOne] resolves to, [undefined] included. *)
Definition getOrder (ctx : RequestContext) (orderId : option ID)
  : M (option Order + MolliePaymentIntentResult) :=
  match orderId with
  | Some id =>
      if truthy (Some id) then
        order <- assertFound (read (OrderFindOne ctx id)
                                (fun w => orderService_findOne C w ctx id)) ;;
        ret (inl order)
      else
        order <- read (GetActiveOrder ctx)
                      (fun w => activeOrderService_getActiveOrder C w ctx) ;;
        match order with
        | None => ret (inr (PaymentIntentError MsgNoActiveOrder))
        | Some order => ret (inl (Some order))
        end
  | None =>
      order <- read (GetActiveOrder ctx)
                    (fun w => activeOrderService_getActiveOrder C w ctx) ;;
      match order with
      | None => ret (inr (PaymentIntentError MsgNoActiveOrder))
      | Some order => ret (inl (Some order))
      end
  end.

(** [getPaymentMethod] (lines 455-470) *)
Definition getPaymentMethod (ctx : RequestContext)
    (paymentMethodCode : option string) : M (option PaymentMethod) :=
  if truthy paymentMethodCode then
    items <- read (PaymentMethodFindAll ctx paymentMethodCode)
                  (fun w => paymentMethodService_findAll C w ctx paymentMethodCode) ;;
    ret (List.find
           (fun pm => match paymentMethodCode with
                      | Some c => String.eqb (pm_code pm) c
                      | None => false
                      end) items)
  else
    items <- read (PaymentMethodFindAll ctx None)
                  (fun w => paymentMethodService_findAll C w ctx None) ;;
    ret (List.find
           (fun pm => String.eqb (pm_handler_code pm) (molliePaymentHandler_code C))
           items).

(** [canTransitionTo] (lines 448-453): a dry run on a fresh copy of the order.
    The state machine is handed what [findOne] resolved to; what it does with
    [undefined] is its own. *)
Definition canTransitionTo (ctx : RequestContext) (orderId : ID)
    (target : OrderState) : M unit :=
  orderCopy <- assertFound (read (OrderFindOne ctx orderId)
                              (fun w => orderService_findOne C w ctx orderId)) ;;
  rejected <- read (StateMachineTransition ctx (option_map order_id orderCopy)
                      target)
                   (fun w => orderStateMachine_transition C w ctx orderCopy target) ;;
  match rejected with
  | Some msg => throw (StateMachineError msg)
  | None => ret tt
  end.

(** [(e as Error).message] for the errors that [canTransitionTo] throws. *)
Definition errorMessage (e : Error) : option string :=
  match e with
  | StateMachineError msg => Some msg
  | _ => None
  end.

Definition relationsForIntent : list string :=
  ["customer"; "surcharges"; "lines.productVariant";
   "lines.productVariant.translations"; "shippingLines.shippingMethod";
   "payments"].

(** [!order.customer?.firstName.length] and its twin for [lastName] *)
Definition lacksName (field : Customer -> string) (c : option Customer) : bool :=
  match c with
  | Some c => Nat.eqb (String.length (field c)) 0
  | None => true
  end.

Definition orderInputFor (ctx : RequestContext) (order : Order)
    (paymentMethod : PaymentMethod) (redirectUrl vendureHost : string)
    (billingAddress : MollieAddress) (amountToPay alreadyPaid : Z)
    (molliePaymentMethodCode : option string) : CreateParameters :=
  {| cp_orderNumber := code order;
     cp_amount := toAmount C amountToPay (currencyCode order);
     cp_redirectUrl := redirectUrl;
     cp_webhookUrl :=
       vendureHost ++ "/payments/mollie/" ++ channelToken ctx ++ "/"
         ++ pm_id paymentMethod;
     cp_billingAddress := billingAddress;
     cp_locale := getLocale C (ma_country billingAddress) (languageCode ctx);
     cp_lines := toMollieOrderLines C order alreadyPaid;
     cp_metadata_languageCode := languageCode ctx;
     cp_method :=
       if truthy molliePaymentMethodCode then molliePaymentMethodCode else None |}.

(** Lines 183-236: the outstanding amount and the two ways to proceed. *)
Definition payOutstanding (ctx : RequestContext) (order : Order)
    (paymentMethod : PaymentMethod) (redirectUrl apiKey vendureHost : string)
    (billingAddress : MollieAddress) (molliePaymentMethodCode : option string)
  : M MolliePaymentIntentResult :=
  let alreadyPaid := totalCoveredByPayments C order in
  let amountToPay := totalWithTax order - alreadyPaid in
  if Z.eqb amountToPay 0 then
    let adminCtx := adminContext ctx (languageCode ctx) in
    addPayment adminCtx order amountToPay settledWithoutMollie
               (pm_code paymentMethod) Settled ;;;
    ret (IntentUrl redirectUrl)
  else
    let orderInput :=
      orderInputFor ctx order paymentMethod redirectUrl vendureHost billingAddress
                    amountToPay alreadyPaid molliePaymentMethodCode in
    created <- call (MollieOrdersCreate apiKey orderInput)
                    (fun w => mollie_orders_create C w apiKey orderInput) ;;
    match created with
    | inl msg => throw (ProviderCreateError msg)
    | inr mollieOrder =>
        (* not awaited in the source; a failure is only logged *)
        saved <- call (UpdateCustomFields ctx (order_id order) (mo_id mollieOrder))
                      (fun w => orderService_updateCustomFields C w ctx
                                  (order_id order) (mo_id mollieOrder)) ;;
        log LInfo (MsgCreatedMollieOrder (mo_id mollieOrder) (code order)) ;;;
        (match saved with
         | Some msg => log LError (MsgFailedToSaveMollieOrderId msg)
         | None => ret tt
         end) ;;;
        match mo_checkoutUrl mollieOrder with
        | Some url =>
            if truthy (Some url) then ret (IntentUrl url)
            else throw NoCheckoutUrlError
        | None => throw NoCheckoutUrlError
        end
    end.

(** What lines 84-182 establish before the amount is looked at: the hydrated
    order, the payment method, the redirect URL, the API key, the host without
    its trailing slash and the billing address. *)
Record PreparedIntent := {
  p_order : Order;
  p_paymentMethod : PaymentMethod;
  p_redirectUrl : string;
  p_apiKey : string;
  p_vendureHost : string;
  p_billingAddress : MollieAddress;
}.

(** [input.redirectUrl], or the fallback of the payment method followed by the
    order code (lines 146-161). *)
Definition resolveRedirectUrl (input : MolliePaymentIntentInput)
    (paymentMethod : PaymentMethod) (order : Order) : option string :=
  if truthy (in_redirectUrl input) then in_redirectUrl input
  else
    match findArg "redirectUrl" (pm_handler_args paymentMethod) with
    | Some fallbackRedirect =>
        if truthy (Some fallbackRedirect)
        then Some (stripTrailingSlash fallbackRedirect ++ "/" ++ code order)
        else None
    | None => None
    end.

(** Lines 163-169: the warning and the error result for a missing API key. *)
Definition refuseWithoutApiKey (paymentMethod : PaymentMethod)
  : M (MolliePaymentIntentResult + PreparedIntent) :=
  log LWarn (MsgNoApiKeyConfigured (pm_code paymentMethod)) ;;;
  ret (inl (PaymentIntentError
              (MsgPaymentMethodHasNoApiKey (pm_code paymentMethod)))).

(** Lines 84-182 of [createPaymentIntent]: every early [return] of an error
    result is an [inl]; [inr] is reaching line 183. *)
Definition validateIntent (ctx : RequestContext)
    (input : MolliePaymentIntentInput)
  : M (MolliePaymentIntentResult + PreparedIntent) :=
  let paymentMethodCode := in_paymentMethodCode input in
  let molliePaymentMethodCode := in_molliePaymentMethodCode input in
  if match molliePaymentMethodCode with
     | Some c => truthy (Some c) && negb (existsb (String.eqb c) (allowedMethods C))
     | None => false
     end
  then ret (inl (InvalidInputError (MsgMethodCodeNotAllowed (allowedMethods C))))
  else
    both <- promiseAll2 (getOrder ctx (in_orderId input))
                        (getPaymentMethod ctx paymentMethodCode) ;;
    match both with
    | (inr err, _) => ret (inl err)
    | (inl _, None) =>
        ret (inl (PaymentIntentError (MsgNoPaymentMethodWithCode paymentMethodCode)))
    | (inl None, Some _) =>
        (* [order.id] at line 102, for the [undefined] of [getOrder] *)
        throw (TypeError "id")
    | (inl (Some order), Some paymentMethod) =>
        eligiblePaymentMethods <-
          read (GetEligiblePaymentMethods ctx (order_id order))
               (fun w => orderService_getEligiblePaymentMethods C w ctx
                           (order_id order)) ;;
        (* [hydrate] fills the relations of the very object [order] *)
        order <- read (Hydrate ctx (order_id order) relationsForIntent)
                      (fun w => entityHydrator_hydrate C w ctx order
                                  relationsForIntent) ;;
        if negb (existsb
                   (fun eligibleMethod =>
                      String.eqb (em_id eligibleMethod) (pm_id paymentMethod)
                      && em_isEligible eligibleMethod)
                   eligiblePaymentMethods)
        then ret (inl (InvalidInputError
                         (MsgNotEligible (pm_code paymentMethod) (code order))))
        else
          precheck <-
            (if negb (String.eqb (state order) "ArrangingPayment")
                && negb (String.eqb (state order) "ArrangingAdditionalPayment")
             then
               catch (canTransitionTo ctx (order_id order) "ArrangingPayment" ;;;
                      ret None)
                     (fun e =>
                        match errorMessage e with
                        | Some msg =>
                            if truthy (Some msg)
                            then ret (Some (PaymentIntentError (MsgTransition msg)))
                            else throw e
                        | None => throw e
                        end)
             else ret None) ;;
          match precheck with
          | Some err => ret (inl err)
          | None =>
              if lacksName firstName (customer order) then
                ret (inl (PaymentIntentError MsgNoFirstName))
              else if lacksName lastName (customer order) then
                ret (inl (PaymentIntentError MsgNoLastName))
              else
                match resolveRedirectUrl input paymentMethod order with
                | None => ret (inl (PaymentIntentError MsgNoRedirect))
                | Some redirectUrl =>
                    match findArg "apiKey" (pm_handler_args paymentMethod) with
                    | Some apiKey =>
                        if truthy (Some apiKey) then
                          match
                            match toMollieAddress C (billingAddress order)
                                                  (customer order) with
                            | Some a => Some a
                            | None => toMollieAddress C (shippingAddress order)
                                                      (customer order)
                            end
                          with
                          | None => ret (inl (InvalidInputError MsgIncompleteAddress))
                          | Some billingAddress =>
                              ret (inr {| p_order := order;
                                          p_paymentMethod := paymentMethod;
                                          p_redirectUrl := redirectUrl;
                                          p_apiKey := apiKey;
                                          p_vendureHost :=
                                            stripTrailingSlash (options_vendureHost C);
                                          p_billingAddress := billingAddress |})
                          end
                        else refuseWithoutApiKey paymentMethod
                    | None => refuseWithoutApiKey paymentMethod
                    end
                end
          end
    end.

Definition createPaymentIntent (ctx : RequestContext)
    (input : MolliePaymentIntentInput) : M MolliePaymentIntentResult :=
  checked <- validateIntent ctx input ;;
  match checked with
  | inl err => ret err
  | inr p =>
      payOutstanding ctx (p_order p) (p_paymentMethod p) (p_redirectUrl p)
        (p_apiKey p) (p_vendureHost p) (p_billingAddress p)
        (in_molliePaymentMethodCode input)
  end.

End Service.

Arguments Ok {A} a.
Arguments Throw {A} e.
Arguments Log {MollieLine} level msg.
Arguments PaymentMethodFindOne {MollieLine} ctx id.
Arguments PaymentMethodFindAll {MollieLine} ctx codeFilter.
Arguments MollieOrdersGet {MollieLine} apiKey orderId.
Arguments MollieOrdersCreate {MollieLine} apiKey params.
Arguments OrderFindOneByCode {MollieLine} ctx orderCode.
Arguments OrderFindOne {MollieLine} ctx id.
Arguments GetActiveOrder {MollieLine} ctx.
Arguments GetEligiblePaymentMethods {MollieLine} ctx id.
Arguments Hydrate {MollieLine} ctx id relations.
Arguments StateMachineTransition {MollieLine} ctx id target.
Arguments TransitionToState {MollieLine} ctx id target.
Arguments AddPaymentToOrder {MollieLine} ctx id input.
Arguments SettlePayment {MollieLine} ctx paymentId.
Arguments UpdateCustomFields {MollieLine} ctx id mollieOrderId.
Arguments cp_orderNumber {MollieLine} _.
Arguments cp_amount {MollieLine} _.
Arguments cp_redirectUrl {MollieLine} _.
Arguments cp_webhookUrl {MollieLine} _.
Arguments cp_billingAddress {MollieLine} _.
Arguments cp_locale {MollieLine} _.
Arguments cp_lines {MollieLine} _.
Arguments cp_metadata_languageCode {MollieLine} _.
Arguments cp_method {MollieLine} _.
Arguments paymentMethodService_findOne {MollieLine W} _.
Arguments paymentMethodService_findAll {MollieLine W} _.
Arguments mollie_orders_get {MollieLine W} _.
Arguments mollie_orders_create {MollieLine W} _.
Arguments orderService_findOneByCode {MollieLine W} _.
Arguments orderService_findOne {MollieLine W} _.
Arguments orderService_getEligiblePaymentMethods {MollieLine W} _.
Arguments orderService_transitionToState {MollieLine W} _.
Arguments orderService_addPaymentToOrder {MollieLine W} _.
Arguments orderService_settlePayment {MollieLine W} _.
Arguments orderService_updateCustomFields {MollieLine W} _.
Arguments activeOrderService_getActiveOrder {MollieLine W} _.
Arguments entityHydrator_hydrate {MollieLine W} _.
Arguments orderStateMachine_transition {MollieLine W} _.
Arguments amountToCents {MollieLine W} _.
Arguments toAmount {MollieLine W} _.
Arguments toMollieAddress {MollieLine W} _.
Arguments toMollieOrderLines {MollieLine W} _.
Arguments getLocale {MollieLine W} _.
Arguments totalCoveredByPayments {MollieLine W} _.
Arguments allowedMethods {MollieLine W} _.
Arguments options_vendureHost {MollieLine W} _.
Arguments molliePaymentHandler_code {MollieLine W} _.
Arguments addPayment {MollieLine W} C ctx order amount mollieMetadata
  paymentMethodCode status _.
Arguments settleExistingPayment {MollieLine W} C ctx order mollieOrderId _.
Arguments reconcileOrder {MollieLine W} C ctx paymentMethod autoCapture
  mollieOrder order _.
Arguments handleMollieStatusUpdate {MollieLine W} C ctx input _.
Arguments validateIntent {MollieLine W} C ctx input _.
Arguments payOutstanding {MollieLine W} C ctx order paymentMethod redirectUrl
  apiKey vendureHost billingAddress molliePaymentMethodCode _.
Arguments createPaymentIntent {MollieLine W} C ctx input _.
Arguments orderInputFor {MollieLine W} C ctx order paymentMethod redirectUrl
  vendureHost billingAddress amountToPay alreadyPaid molliePaymentMethodCode.

(** ** Reading a trace *)

(** The payments that a trace asks the order service to attach. *)
Definition addPaymentRequests {L} (t : list (Event L)) : list PaymentInput :=
  flat_map (fun e => match e with
                     | AddPaymentToOrder _ _ input => [input]
                     | _ => []
                     end) t.

(** The payments that a trace asks the order service to settle. *)
Definition settlementCalls {L} (t : list (Event L)) : list ID :=
  flat_map (fun e => match e with
                     | SettlePayment _ paymentId => [paymentId]
                     | _ => []
                     end) t.

(** The calls that change the order store: a state transition, a new payment,
    a settlement, a custom field. *)
Definition changesOrderStore {L} (e : Event L) : bool :=
  match e with
  | TransitionToState _ _ _ | AddPaymentToOrder _ _ _ | SettlePayment _ _
  | UpdateCustomFields _ _ _ => true
  | _ => false
  end.

(** The calls to the payment provider. *)
Definition callsProvider {L} (e : Event L) : bool :=
  match e with
  | MollieOrdersGet _ _ | MollieOrdersCreate _ _ => true
  | _ => false
  end.

Definition isLog {L} (e : Event L) : bool :=
  match e with
  | Log _ _ => true
  | _ => false
  end.

(** ** The lookups of a status update

    [resolves C w ctx input pm key mo o]: in the state [w], the notification
    [input] names the payment method [pm], whose API key [key] is set; the
    provider answers with the order [mo]; the order store knows the order [o]
    under the order number of [mo]. *)
Definition resolves {L W} (C : Collaborators L W) (w : W) (ctx : RequestContext)
    (input : OrderStatusInput) (pm : PaymentMethod) (key : string)
    (mo : MollieOrder) (o : Order) : Prop :=
  paymentMethodService_findOne C w ctx (paymentMethodId input) = Some pm
  /\ findArg "apiKey" (pm_handler_args pm) = Some key
  /\ truthy (Some key) = true
  /\ mollie_orders_get C w key (orderId input) = inr mo
  /\ orderService_findOneByCode C w (contextFor ctx mo) (mo_orderNumber mo) = Some o.

(** What [handleMollieStatusUpdate] has logged and called when it reaches the
    status gate of line 287. *)
Definition lookupTrace {L} (ctx : RequestContext) (input : OrderStatusInput)
    (key : string) (mo : MollieOrder) : list (Event L) :=
  [ Log LInfo (MsgReceivedStatusUpdate (channelToken ctx) (orderId input));
    PaymentMethodFindOne ctx (paymentMethodId input);
    MollieOrdersGet key (orderId input);
    Log LInfo (MsgProcessingStatus (mo_status mo) (mo_orderNumber mo)
                 (channelToken (contextFor ctx mo)) (orderId input));
    OrderFindOneByCode (contextFor ctx mo) (mo_orderNumber mo) ].

(** The events of the transition that [addPayment] asks for first, when the
    order is not yet arranging a payment. *)
Definition transitionRequest {L} (ctx : RequestContext) (o : Order)
  : list (Event L) :=
  if negb (String.eqb (state o) "ArrangingPayment")
     && negb (String.eqb (state o) "ArrangingAdditionalPayment")
  then [TransitionToState ctx (order_id o) "ArrangingPayment"]
  else [].

(** [m] followed by nothing else, after the events [t0]. *)
Definition after {L W A} (t0 : list (Event L))
    (r : Res A * W * list (Event L)) : Res A * W * list (Event L) :=
  match r with
  | (x, w, t) => (x, w, (t0 ++ t)%list)
  end.

(** [storeAccepts C w ctx o input w2 o2]: from the state [w], the order
    service lets [addPayment] through: it grants the transition to
    [ArrangingPayment] that an order in another state needs first, and then
    attaches [input], which leaves the state [w2] and the order [o2]. *)
Definition storeAccepts {L W} (C : Collaborators L W) (w : W)
    (ctx : RequestContext) (o : Order) (input : PaymentInput) (w2 : W)
    (o2 : Order) : Prop :=
  exists w1,
    (if negb (String.eqb (state o) "ArrangingPayment")
        && negb (String.eqb (state o) "ArrangingAdditionalPayment")
     then exists o1,
         orderService_transitionToState C w ctx (order_id o) "ArrangingPayment"
         = (w1, inr o1)
     else w1 = w)
    /\ orderService_addPaymentToOrder C w1 ctx (order_id o) input = (w2, inr o2).

(** A computation that only reads: it leaves the state as it is and neither
    calls the provider nor changes the order store. *)
Definition quiet {L W A} (m : M L W A) : Prop :=
  forall w, exists r t,
    m w = (r, w, t)
    /\ existsb callsProvider t = false
    /\ existsb changesOrderStore t = false.

(** [ensures m Q]: whenever [m] returns, what it returns satisfies [Q]. *)
Definition ensures {L W A} (m : M L W A) (Q : A -> Prop) : Prop :=
  forall w a w' t, m w = (Ok a, w', t) -> Q a.

(** ** [getEnabledPaymentMethods] (lines 415-442)

    The method talks to two collaborators that the other methods do not use:
    the hook [options.enabledPaymentMethodsParams], which is optional, and
    [client.methods.list].  Its trace is made of the events of the other
    methods and of these two calls. *)
Section EnabledMethods.

Variable MollieLine : Type.
Variable W : Type.
Variable C : Collaborators MollieLine W.

(** A payment method as the provider lists it; the service reads its [id]
    and copies the rest. *)
Variable Method : Type.
Variable method_id : Method -> string.

(** [options.enabledPaymentMethodsParams], when the plugin is given one; the
    parameters are an object from names to values. *)
Variable enabledPaymentMethodsParams :
  option (W -> RequestContext -> option Order -> gmap string string).

(** [client.methods.list(params)]; [inl] is a rejected promise. *)
Variable mollie_methods_list :
  W -> string -> gmap string string -> string + list Method.

(** [{ ...m, code: m.id }] *)
Record MolliePaymentMethod := {
  mpm_code : string;
  mpm_method : Method;
}.

Inductive MethodsEvent :=
| Core (e : Event MollieLine)
| EnabledPaymentMethodsParams (ctx : RequestContext) (activeOrder : option ID)
| MollieMethodsList (apiKey : string) (params : gmap string string).

Inductive MethodsError :=
| CoreError (e : Error)
| NoApiKeyConfiguredError (paymentMethodCode : string)
| ProviderListError (msg : string).

(** [{ ...additionalParams, resource: 'orders' }]; spreading [undefined] adds
    nothing. *)
Definition listParams (additionalParams : option (gmap string string))
  : gmap string string :=
  <["resource" := "orders"]> (default ∅ additionalParams).

Definition getEnabledPaymentMethods (ctx : RequestContext)
    (paymentMethodCode : string) (w : W)
  : (MethodsError + list MolliePaymentMethod) * W * list MethodsEvent :=
  match getPaymentMethod MollieLine W C ctx (Some paymentMethodCode) w with
  | (Throw e, w, t) => (inl (CoreError e), w, map Core t)
  | (Ok paymentMethod, w, t) =>
      let apiKey :=
        match paymentMethod with
        | Some paymentMethod => findArg "apiKey" (pm_handler_args paymentMethod)
        | None => None
        end in
      match apiKey with
      | None => (inl (NoApiKeyConfiguredError paymentMethodCode), w, map Core t)
      | Some key =>
          if negb (truthy (Some key))
          then (inl (NoApiKeyConfiguredError paymentMethodCode), w, map Core t)
          else
            let activeOrder := activeOrderService_getActiveOrder C w ctx in
            let additionalParams :=
              match enabledPaymentMethodsParams with
              | Some hook => Some (hook w ctx activeOrder)
              | None => None
              end in
            let hookCall :=
              match enabledPaymentMethodsParams with
              | Some _ =>
                  [EnabledPaymentMethodsParams ctx (option_map order_id activeOrder)]
              | None => []
              end in
            let params := listParams additionalParams in
            let trace :=
              (map Core t ++ [Core (GetActiveOrder ctx)] ++ hookCall
                 ++ [MollieMethodsList key params])%list in
            match mollie_methods_list w key params with
            | inl msg => (inl (ProviderListError msg), w, trace)
            | inr methods =>
                (inr (map (fun m => {| mpm_code := method_id m; mpm_method := m |})
                          methods), w, trace)
            end
      end
  end.

End EnabledMethods.

Arguments Core {MollieLine} e.
Arguments EnabledPaymentMethodsParams {MollieLine} ctx activeOrder.
Arguments MollieMethodsList {MollieLine} apiKey params.
Arguments mpm_code {Method} _.
Arguments mpm_method {Method} _.
Arguments getEnabledPaymentMethods {MollieLine W} C {Method} method_id
  enabledPaymentMethodsParams mollie_methods_list ctx paymentMethodCode w.

(** ** An in-memory order store and provider

    A small implementation of the collaborators, on which the service can be
    run: orders, payment methods and provider orders are lists; a payment
    that covers the order total moves the order to [PaymentAuthorized] or
    [PaymentSettled] and stamps [orderPlacedAt]; an order without a customer
    cannot leave [AddingItems]. *)
Module InMemory.

Record World := {
  methods : list PaymentMethod;
  providerOrders : list MollieOrder;
  orders : list Order;
}.

Definition withState (o : Order) (s : OrderState) : Order :=
  {| order_id := order_id o; code := code o; state := s;
     orderPlacedAt := orderPlacedAt o; payments := payments o;
     totalWithTax := totalWithTax o; currencyCode := currencyCode o;
     customer := customer o; billingAddress := billingAddress o;
     shippingAddress := shippingAddress o |}.

Definition withPayments (o : Order) (ps : list Payment) (s : OrderState)
    (placed : option Z) : Order :=
  {| order_id := order_id o; code := code o; state := s;
     orderPlacedAt := placed; payments := ps;
     totalWithTax := totalWithTax o; currencyCode := currencyCode o;
     customer := customer o; billingAddress := billingAddress o;
     shippingAddress := shippingAddress o |}.

Definition putOrder (w : World) (o : Order) : World :=
  {| methods := methods w;
     providerOrders := providerOrders w;
     orders := map (fun x => if String.eqb (order_id x) (order_id o) then o else x)
                   (orders w) |}.

Definition orderById (w : World) (id : ID) : option Order :=
  List.find (fun o => String.eqb (order_id o) id) (orders w).

Definition covered (ps : list Payment) : Z :=
  fold_right (fun p acc => payment_amount p + acc) 0 ps.

Definition allSettled (ps : list Payment) : bool :=
  forallb (fun p => String.eqb (payment_state p) "Settled") ps.

(** The state an order is in once its payments are [ps]. *)
Definition stateAfterPayments (o : Order) (ps : list Payment) : OrderState :=
  if Z.leb (totalWithTax o) (covered ps)
  then if allSettled ps then "PaymentSettled" else "PaymentAuthorized"
  else state o.

Definition placedAfterPayments (o : Order) (ps : list Payment) : option Z :=
  if Z.leb (totalWithTax o) (covered ps) then Some 1 else orderPlacedAt o.

Definition transition (w : World) (id : ID) (target : OrderState)
  : World * (OrderStateTransitionError + Order) :=
  match orderById w id with
  | None => (w, inl {| te_fromState := ""; te_toState := target;
                       te_message := "order not found" |})
  | Some o =>
      match customer o with
      | None => (w, inl {| te_fromState := state o; te_toState := target;
                           te_message := "no customer" |})
      | Some _ => (putOrder w (withState o target), inr (withState o target))
      end
  end.

Definition paymentStateName (s : PaymentStatus) : string :=
  match s with
  | Authorized => "Authorized"
  | Settled => "Settled"
  end.

Definition attach (w : World) (id : ID) (input : PaymentInput)
  : World * (ErrorResult + Order) :=
  match orderById w id with
  | None => (w, inl {| errorCode := "ORDER_NOT_FOUND"; message := "order not found" |})
  | Some o =>
      if String.eqb (state o) "ArrangingPayment"
         || String.eqb (state o) "ArrangingAdditionalPayment"
      then
        let tx := default "" (md_orderId (pi_metadata input)) in
        let p := {| payment_id := "pay_" ++ tx;
                    transactionId := tx;
                    payment_amount := md_amount (pi_metadata input);
                    payment_state := paymentStateName (md_status (pi_metadata input)) |} in
        let ps := (payments o ++ [p])%list in
        let o' := withPayments o ps (stateAfterPayments o ps)
                               (placedAfterPayments o ps) in
        (putOrder w o', inr o')
      else
        (w, inl {| errorCode := "ORDER_PAYMENT_STATE_ERROR";
                   message := "order is not arranging payment" |})
  end.

Definition settleIn (pid : ID) (ps : list Payment) : list Payment :=
  map (fun p => if String.eqb (payment_id p) pid
                then {| payment_id := payment_id p; transactionId := transactionId p;
                        payment_amount := payment_amount p;
                        payment_state := "Settled" |}
                else p) ps.

Definition settle (w : World) (pid : ID) : World * (ErrorResult + Payment) :=
  match List.find (fun o => existsb (fun p => String.eqb (payment_id p) pid)
                                    (payments o)) (orders w) with
  | None => (w, inl {| errorCode := "SETTLE_PAYMENT_ERROR";
                       message := "payment not found" |})
  | Some o =>
      let ps := settleIn pid (payments o) in
      let o' := withPayments o ps (stateAfterPayments o ps)
                             (placedAfterPayments o ps) in
      match List.find (fun p => String.eqb (payment_id p) pid) ps with
      | Some p => (putOrder w o', inr p)
      | None => (w, inl {| errorCode := "SETTLE_PAYMENT_ERROR";
                           message := "payment not found" |})
      end
  end.

(** Cents of a decimal amount with two decimals, as in ["10.00"]. *)
Definition centsOf (a : Amount) : Z :=
  fold_left (fun acc c =>
               let n := Z.of_nat (nat_of_ascii c) in
               if (48 <=? n) && (n <=? 57) then 10 * acc + (n - 48) else acc)
            (list_ascii_of_string (amount_value a)) 0.

Fixpoint digitsOf (fuel : nat) (n : Z) (acc : string) : string :=
  match fuel with
  | O => acc
  | S fuel =>
      let acc := String (ascii_of_nat (Z.to_nat (48 + n mod 10))) acc in
      if n / 10 =? 0 then acc else digitsOf fuel (n / 10) acc
  end.

Definition amountOf (cents : Z) (currency : string) : Amount :=
  {| amount_value :=
       digitsOf 20 (cents / 100) ""
         ++ "." ++ digitsOf 1 (cents mod 100 / 10) "" ++ digitsOf 1 (cents mod 10) "";
     amount_currency := currency |}.

Definition addressOf (a : Address) (c : option Customer) : option MollieAddress :=
  match streetLine1 a, city a, postalCode a, country a with
  | Some s, Some ci, Some pc, Some co =>
      Some {| ma_streetAndNumber := s; ma_postalCode := pc; ma_city := ci;
              ma_country := co |}
  | _, _, _, _ => None
  end.

Definition createProviderOrder (w : World) (params : CreateParameters unit)
  : World * (string + MollieOrder) :=
  let mo := {| mo_id := "ord_" ++ cp_orderNumber params;
               mo_status := created;
               mo_orderNumber := cp_orderNumber params;
               mo_amount := cp_amount params;
               mo_metadata_languageCode := Some (cp_metadata_languageCode params);
               mo_mode := "test";
               mo_method := cp_method params;
               mo_profileId := "pfl_1";
               mo_authorizedAt := None;
               mo_paidAt := None;
               mo_checkoutUrl :=
                 Some ("https://mollie.example/checkout/" ++ cp_orderNumber params) |} in
  ({| methods := methods w;
      providerOrders := (providerOrders w ++ [mo])%list;
      orders := orders w |}, inr mo).

Definition collaborators : Collaborators unit World :=
  {| paymentMethodService_findOne := fun w _ id =>
       List.find (fun pm => String.eqb (pm_id pm) id) (methods w);
     paymentMethodService_findAll := fun w _ codeFilter =>
       match codeFilter with
       | Some c => List.filter (fun pm => String.eqb (pm_code pm) c) (methods w)
       | None => methods w
       end;
     mollie_orders_get := fun w _ id =>
       match List.find (fun mo => String.eqb (mo_id mo) id) (providerOrders w) with
       | Some mo => inr mo
       | None => inl "order not found"
       end;
     mollie_orders_create := fun w _ params => createProviderOrder w params;
     orderService_findOneByCode := fun w _ c =>
       List.find (fun o => String.eqb (code o) c) (orders w);
     orderService_findOne := fun w _ id => orderById w id;
     orderService_getEligiblePaymentMethods := fun w _ _ =>
       map (fun pm => {| em_id := pm_id pm; em_isEligible := true |}) (methods w);
     orderService_transitionToState := fun w _ id target => transition w id target;
     orderService_addPaymentToOrder := fun w _ id input => attach w id input;
     orderService_settlePayment := fun w _ pid => settle w pid;
     orderService_updateCustomFields := fun w _ _ _ => (w, None);
     activeOrderService_getActiveOrder := fun w _ =>
       List.find (fun o => String.eqb (state o) "AddingItems") (orders w);
     entityHydrator_hydrate := fun w _ o _ => default o (orderById w (order_id o));
     orderStateMachine_transition := fun _ _ o _ =>
       match o with
       | Some o =>
           match customer o with
           | Some _ => None
           | None => Some "no customer"
           end
       | None => Some "Cannot read properties of undefined (reading 'state')"
       end;
     amountToCents := centsOf;
     toAmount := amountOf;
     toMollieAddress := addressOf;
     toMollieOrderLines := fun _ _ => [];
     getLocale := fun co lang => lang ++ "_" ++ co;
     totalCoveredByPayments := fun o => covered (payments o);
     allowedMethods := ["ideal"; "creditcard"; "paypal"];
     options_vendureHost := "https://shop.example/";
     molliePaymentHandler_code := "mollie-payment-handler" |}.

(** *** A shop with one payment method and a few orders *)

Definition ctx0 : RequestContext :=
  {| apiType := "shop"; isAuthorized := false; authorizedAsOwnerOnly := false;
     channelToken := "default-channel"; languageCode := "en" |}.

Definition methodWith (autoCapture : string) : PaymentMethod :=
  {| pm_id := "1"; pm_code := "mollie"; pm_handler_code := "mollie-payment-handler";
     pm_handler_args :=
       [ {| arg_name := "apiKey"; arg_value := "test_key" |};
         {| arg_name := "autoCapture"; arg_value := autoCapture |};
         {| arg_name := "redirectUrl"; arg_value := "https://shop.example/done/" |} ] |}.

Definition methodWithoutKey : PaymentMethod :=
  {| pm_id := "2"; pm_code := "mollie-unconfigured";
     pm_handler_code := "mollie-payment-handler";
     pm_handler_args := [ {| arg_name := "autoCapture"; arg_value := "false" |} ] |}.

Definition home : Address :=
  {| streetLine1 := Some "Main Street 1"; city := Some "Leeuwarden";
     postalCode := Some "8900AA"; country := Some "NL" |}.

Definition alice : Customer := {| firstName := "Alice"; lastName := "Doe" |}.

Definition order (id : ID) (s : OrderState) (placed : option Z)
    (ps : list Payment) (total : Z) : Order :=
  {| order_id := id; code := "CODE" ++ id; state := s; orderPlacedAt := placed;
     payments := ps; totalWithTax := total; currencyCode := "EUR";
     customer := Some alice; billingAddress := home; shippingAddress := home |}.

Definition providerOrder (id : string) (s : OrderStatus) (number value : string)
  : MollieOrder :=
  {| mo_id := id; mo_status := s; mo_orderNumber := number;
     mo_amount := {| amount_value := value; amount_currency := "EUR" |};
     mo_metadata_languageCode := Some "nl"; mo_mode := "test";
     mo_method := Some "ideal"; mo_profileId := "pfl_1";
     mo_authorizedAt := None; mo_paidAt := None;
     mo_checkoutUrl := Some ("https://mollie.example/checkout/" ++ number) |}.

Definition payment (tx : string) (amount : Z) (s : string) : Payment :=
  {| payment_id := "pay_" ++ tx; transactionId := tx; payment_amount := amount;
     payment_state := s |}.

Definition shop (autoCapture : string) (mo : MollieOrder) (o : Order) : World :=
  {| methods := [methodWith autoCapture; methodWithoutKey];
     providerOrders := [mo];
     orders := [o] |}.

Definition notification (mo : MollieOrder) : OrderStatusInput :=
  {| paymentMethodId := "1"; orderId := mo_id mo |}.

(** The order of an answer of the order service, [d] when it is an error. *)
Definition answered {E} (d : Order) (r : E + Order) : Order :=
  match r with
  | inr o => o
  | inl _ => d
  end.

(** *** Notifications *)

(** An expired provider order for an order that is arranging its payment. *)
Definition expiredOrder := providerOrder "ord_1" expired "CODE7" "10.00".
Definition arranging := order "7" "ArrangingPayment" None [] 1000.

(** A paid provider order [ord_1] of 10.00. *)
Definition paidOrder := providerOrder "ord_1" paid "CODE7" "10.00".

(** An order settled by [ord_0] that is paid again by [ord_1]. *)
Definition settledByAnother :=
  order "7" "PaymentSettled" (Some 5) [payment "ord_0" 1000 "Settled"] 1000.

(** An order settled by [ord_1] itself. *)
Definition settledAlready :=
  order "7" "PaymentSettled" (Some 5) [payment "ord_1" 1000 "Settled"] 1000.

(** An order of 15.00 on which [ord_1] has been attached for 10.00: the
    payment does not cover the total, the order is still arranging it. *)
Definition unpaid := order "7" "ArrangingPayment" None [] 1500.
Definition partlyPaid :=
  order "7" "ArrangingPayment" None [payment "ord_1" 1000 "Settled"] 1500.

(** A placed order of 10.00 that was modified to 15.00: the customer pays
    the difference through a new provider order. *)
Definition additionalOrder := providerOrder "ord_1" paid "CODE7" "5.00".
Definition modified :=
  order "7" "ArrangingAdditionalPayment" (Some 5)
        [payment "ord_0" 1000 "Settled"] 1500.

(** An authorized provider order, for an order that is adding items, and for
    one that carries a placement date. *)
Definition authorizedOrder := providerOrder "ord_1" authorized "CODE7" "10.00".
Definition addingItems := order "7" "AddingItems" None [] 1000.
Definition addingItemsPlaced := order "7" "AddingItems" (Some 5) [] 1000.

(** A cart whose customer is not known yet: the store does not let it leave
    [AddingItems]. *)
Definition anonymousCart : Order :=
  {| order_id := "7"; code := "CODE7"; state := "AddingItems";
     orderPlacedAt := None; payments := []; totalWithTax := 1000;
     currencyCode := "EUR"; customer := None; billingAddress := home;
     shippingAddress := home |}.

(** A completed provider order, for an order authorized by [ord_1] and for
    one authorized by another provider order. *)
Definition completedOrder := providerOrder "ord_1" completed "CODE7" "10.00".
Definition authorizedLocally :=
  order "7" "PaymentAuthorized" (Some 5) [payment "ord_1" 1000 "Authorized"] 1000.
Definition authorizedByAnother :=
  order "7" "PaymentAuthorized" (Some 5) [payment "ord_0" 1000 "Authorized"] 1000.

(** A notification for the payment method that has no API key. *)
Definition toUnconfigured : OrderStatusInput :=
  {| paymentMethodId := "2"; orderId := "ord_1" |}.

(** *** Enabled payment methods *)

(** The provider lists two methods, whatever it is asked. *)
Definition listedMethods (_ : World) (_ : string) (_ : gmap string string)
  : string + list (string * string) :=
  inr [("ideal", "iDEAL"); ("creditcard", "Credit card")].

(** A hook that asks for the methods of a locale and, mistakenly, of the
    payments resource. *)
Definition localeHook (_ : World) (ctx : RequestContext) (_ : option Order)
  : gmap string string :=
  {[ "locale" := languageCode ctx; "resource" := "payments" ]}.

(** The payment methods of this provider are pairs of an id and a
    description. *)
Definition methodId (m : string * string) : string := m.1.

(** *** Payment intents *)
Definition intentFor (id : ID) : MolliePaymentIntentInput :=
  {| in_paymentMethodCode := Some "mollie"; in_molliePaymentMethodCode := None;
     in_redirectUrl := None; in_orderId := Some id |}.

(** An order whose total is covered by its payment, still adding items. *)
Definition coveredOrder :=
  order "7" "AddingItems" None [payment "gift" 1000 "Authorized"] 1000.

End InMemory.

End Mollie.

(** * The promotion service *)
Module Promotions.

Definition ID := N.

(** What reading a property of a plain object gives: the value of an own
    property, here the type that an operation declares for an argument; a
    member that the object inherits from [Object.prototype], such as the
    function [toString]; or [undefined]. *)
Inductive PropertyValue :=
| Declared (type : string)
| Inherited (member : string)
| Undefined.

Record AdjustmentArg := {
  arg_name : string;
  arg_type : PropertyValue;
  arg_value : option string;
}.

Record AdjustmentOperation := {
  op_code : string;
  op_description : string;
  op_args : list AdjustmentArg;
}.

Record AdjustmentArgInput := { in_arg_name : string; in_arg_value : option string }.

Record AdjustmentOperationInput := {
  in_code : string;
  in_arguments : list AdjustmentArgInput;
}.

(** A [PromotionCondition] or a [PromotionAction] of the configuration; [args]
    is the object that maps an argument name to its type: [po_args] are its
    own properties. *)
Record PromotionOperation := {
  po_code : string;
  po_description : string;
  po_args : gmap string string;
}.

(** The names that every plain object inherits from [Object.prototype]. *)
Definition objectPrototypeMembers : list string :=
  [ "constructor"; "__defineGetter__"; "__defineSetter__"; "hasOwnProperty";
    "__lookupGetter__"; "__lookupSetter__"; "isPrototypeOf";
    "propertyIsEnumerable"; "toString"; "valueOf"; "__proto__";
    "toLocaleString" ].

(** [object[name]] for a plain object with the own properties [own]: an own
    property comes first, then the prototype. *)
Definition getProperty (own : gmap string string) (name : string)
  : PropertyValue :=
  match own !! name with
  | Some type => Declared type
  | None =>
      if existsb (String.eqb name) objectPrototypeMembers
      then Inherited name
      else Undefined
  end.

Record Promotion := {
  id : option ID;
  name : string;
  enabled : bool;
  conditions : list AdjustmentOperation;
  actions : list AdjustmentOperation;
  channels : list ID;
}.

Record CreatePromotionInput := {
  create_name : string;
  create_enabled : bool;
  create_conditions : list AdjustmentOperationInput;
  create_actions : list AdjustmentOperationInput;
}.

Record UpdatePromotionInput := {
  update_id : ID;
  update_name : option string;
  update_enabled : option bool;
  update_conditions : option (list AdjustmentOperationInput);
  update_actions : option (list AdjustmentOperationInput);
}.

Inductive OperationType := condition | action.

Inductive I18nError :=
| EntityWithIdNotFound (entityName : string) (id : ID)
| AdjustmentOperationWithCodeNotFound (code : string)
| EntityNotFound.

Inductive Outcome (A : Type) :=
| Returned (a : A)
| Thrown (e : I18nError).
Arguments Returned {A} a.
Arguments Thrown {A} e.

(** The promotion table behind [connection]: its rows by id, and the id that
    the next inserted row gets. *)
Record Table := {
  rows : gmap N Promotion;
  nextId : N;
}.

(** The service instance together with the table it talks to. *)
Record Service := {
  availableConditions : list PromotionOperation;
  availableActions : list PromotionOperation;
  activePromotions : list Promotion;
  connection : Table;
}.

Definition withId (p : Promotion) (i : ID) : Promotion :=
  {| id := Some i; name := name p; enabled := enabled p;
     conditions := conditions p; actions := actions p; channels := channels p |}.

Definition withConditions (p : Promotion) (cs : list AdjustmentOperation) : Promotion :=
  {| id := id p; name := name p; enabled := enabled p;
     conditions := cs; actions := actions p; channels := channels p |}.

Definition withActions (p : Promotion) (acts : list AdjustmentOperation) : Promotion :=
  {| id := id p; name := name p; enabled := enabled p;
     conditions := conditions p; actions := acts; channels := channels p |}.

(** [connection.manager.save(entity)]: an entity with an id replaces the row
    of that id, an entity without one is inserted under the next id. *)
Definition save (e : Promotion) (t : Table) : Table * Promotion :=
  match id e with
  | Some i => ({| rows := <[i := e]> (rows t); nextId := nextId t |}, e)
  | None =>
      let e' := withId e (nextId t) in
      ({| rows := <[nextId t := e']> (rows t); nextId := N.succ (nextId t) |}, e')
  end.

(** [connection.getRepository(Promotion).findOne(id)] *)
Definition findOneRow (i : ID) (t : Table) : option Promotion := rows t !! i.

(** [connection.getRepository(Promotion).find({ where: { enabled: true } })] *)
Definition findEnabled (t : Table) : list Promotion :=
  (map_to_list (filter (fun kv => enabled kv.2 = true) (rows t))).*2.

Definition withConnection (s : Service) (t : Table) : Service :=
  {| availableConditions := availableConditions s;
     availableActions := availableActions s;
     activePromotions := activePromotions s;
     connection := t |}.

Definition withActivePromotions (s : Service) (l : list Promotion) : Service :=
  {| availableConditions := availableConditions s;
     availableActions := availableActions s;
     activePromotions := l;
     connection := connection s |}.

(** [getAdjustmentOperationByCode] (lines 148-159) *)
Definition getAdjustmentOperationByCode (s : Service) (type : OperationType)
    (code : string) : Outcome PromotionOperation :=
  let available :=
    match type with
    | condition => availableConditions s
    | action => availableActions s
    end in
  match List.find (fun a => String.eqb (po_code a) code) available with
  | Some m => Returned m
  | None => Thrown (AdjustmentOperationWithCodeNotFound code)
  end.

(** [parseOperationArgs] (lines 129-146) *)
Definition parseOperationArgs (s : Service) (type : OperationType)
    (input : AdjustmentOperationInput) : Outcome AdjustmentOperation :=
  match getAdjustmentOperationByCode s type (in_code input) with
  | Thrown e => Thrown e
  | Returned m =>
      Returned
        {| op_code := in_code input;
           op_description := po_description m;
           op_args :=
             map (fun inputArg =>
                    {| arg_name := in_arg_name inputArg;
                       arg_type := getProperty (po_args m) (in_arg_name inputArg);
                       arg_value := in_arg_value inputArg |})
                 (in_arguments input) |}
  end.

(** [inputs.map(c => this.parseOperationArgs(type, c))]: the first operation
    whose code is unknown throws. *)
Fixpoint parseAll (s : Service) (type : OperationType)
    (inputs : list AdjustmentOperationInput) : Outcome (list AdjustmentOperation) :=
  match inputs with
  | [] => Returned []
  | c :: rest =>
      match parseOperationArgs s type c with
      | Thrown e => Thrown e
      | Returned op =>
          match parseAll s type rest with
          | Thrown e => Thrown e
          | Returned ops => Returned (op :: ops)
          end
      end
  end.

(** [updatePromotions] (lines 164-168) *)
Definition updatePromotions (s : Service) : Service :=
  withActivePromotions s (findEnabled (connection s)).

(** [getActivePromotions] (lines 84-89) *)
Definition getActivePromotions (s : Service) : list Promotion * Service :=
  let s := match activePromotions s with
           | [] => updatePromotions s
           | _ :: _ => s
           end in
  (activePromotions s, s).

(** [getAdjustmentOperations] (lines 64-79).  [Object.entries(source.args)]
    lists the own properties of the object; they come here in the order of
    the finite map, which is not the insertion order of the object. *)
Definition toAdjustmentOperation (source : PromotionOperation)
  : AdjustmentOperation :=
  {| op_code := po_code source;
     op_description := po_description source;
     op_args :=
       map (fun entry => {| arg_name := entry.1; arg_type := Declared entry.2;
                            arg_value := None |})
           (map_to_list (po_args source)) |}.

Definition getAdjustmentOperations (s : Service)
  : list AdjustmentOperation * list AdjustmentOperation :=
  (map toAdjustmentOperation (availableConditions s),
   map toAdjustmentOperation (availableActions s)).

(** [assertFound(this.findOne(id))] for the entity that [save] has returned.
    [assertFound] only casts the type of the promise, and the row of a saved
    entity is there, so that the promotion is returned as it is read.  The
    service does not reach the other two cases; [EntityNotFound] stands for
    them. *)
Definition assertFoundRow (i : option ID) (s : Service) : Outcome Promotion :=
  match i with
  | Some i =>
      match findOneRow i (connection s) with
      | Some p => Returned p
      | None => Thrown EntityNotFound
      end
  | None => Thrown EntityNotFound
  end.

Section Methods.

(** The request context is only handed on to the channel service. *)
Variable RequestContext : Type.

(** [channelService.assignToChannels(entity, ctx)] *)
Variable assignToChannels : Promotion -> RequestContext -> Promotion.

(** [patchEntity(entity, omit(input, ['conditions', 'actions']))] *)
Variable patchEntity : Promotion -> UpdatePromotionInput -> Promotion.

(** [createPromotion] (lines 91-102) *)
Definition createPromotion (ctx : RequestContext) (input : CreatePromotionInput)
    (s : Service) : Outcome Promotion * Service :=
  match parseAll s condition (create_conditions input) with
  | Thrown e => (Thrown e, s)
  | Returned cs =>
      match parseAll s action (create_actions input) with
      | Thrown e => (Thrown e, s)
      | Returned acts =>
          let adjustmentSource :=
            {| id := None; name := create_name input;
               enabled := create_enabled input;
               conditions := cs; actions := acts; channels := [] |} in
          let adjustmentSource := assignToChannels adjustmentSource ctx in
          let '(t, newAdjustmentSource) := save adjustmentSource (connection s) in
          let s := withConnection s t in
          let s := updatePromotions s in
          (assertFoundRow (id newAdjustmentSource) s, s)
      end
  end.

(** [updatePromotion] (lines 104-124) *)
Definition updatePromotion (ctx : RequestContext) (input : UpdatePromotionInput)
    (s : Service) : Outcome Promotion * Service :=
  match findOneRow (update_id input) (connection s) with
  | None => (Thrown (EntityWithIdNotFound "AdjustmentSource" (update_id input)), s)
  | Some adjustmentSource =>
      let updatedAdjustmentSource := patchEntity adjustmentSource input in
      match
        match update_conditions input with
        | Some cs =>
            match parseAll s condition cs with
            | Thrown e => Thrown e
            | Returned cs => Returned (withConditions updatedAdjustmentSource cs)
            end
        | None => Returned updatedAdjustmentSource
        end
      with
      | Thrown e => (Thrown e, s)
      | Returned updatedAdjustmentSource =>
          match
            match update_actions input with
            | Some acts =>
                match parseAll s action acts with
                | Thrown e => Thrown e
                | Returned acts => Returned (withActions updatedAdjustmentSource acts)
                end
            | None => Returned updatedAdjustmentSource
            end
          with
          | Thrown e => (Thrown e, s)
          | Returned updatedAdjustmentSource =>
              let '(t, saved) := save updatedAdjustmentSource (connection s) in
              let s := withConnection s t in
              let s := updatePromotions s in
              (assertFoundRow (id saved) s, s)
          end
      end
  end.

End Methods.

Arguments createPromotion {RequestContext} assignToChannels ctx input s.
Arguments updatePromotion {RequestContext} patchEntity ctx input s.

(** The promotions of the table that are enabled, as a property of a row. *)
Definition enabledInStore (s : Service) (p : Promotion) : Prop :=
  exists i, rows (connection s) !! i = Some p /\ enabled p = true.

(** The operations that are available for a type (line 152-153). *)
Definition availableFor (s : Service) (type : OperationType)
  : list PromotionOperation :=
  match type with
  | condition => availableConditions s
  | action => availableActions s
  end.

(** Every row of the table carries the id it is stored under. *)
Definition wellKeyed (t : Table) : Prop :=
  forall i p, rows t !! i = Some p -> id p = Some i.

(** *** A configuration to run the service on *)
Module Example.

Definition minimumOrderAmount : PromotionOperation :=
  {| po_code := "minimum_order_amount";
     po_description := "If order total is greater than { amount }";
     po_args := {[ "amount" := "money" ]} |}.

Definition orderPercentageDiscount : PromotionOperation :=
  {| po_code := "order_percentage_discount";
     po_description := "Discount order by { discount }%";
     po_args := {[ "discount" := "percentage" ]} |}.

Definition summerSale : Promotion :=
  {| id := Some 1%N; name := "Summer sale"; enabled := true;
     conditions := []; actions := []; channels := [1%N] |}.

Definition oldSale : Promotion :=
  {| id := Some 2%N; name := "Old sale"; enabled := false;
     conditions := []; actions := []; channels := [1%N] |}.

Definition service : Service :=
  {| availableConditions := [minimumOrderAmount];
     availableActions := [orderPercentageDiscount];
     activePromotions := [summerSale];
     connection := {| rows := {[ 1%N := summerSale; 2%N := oldSale ]};
                      nextId := 3%N |} |}.

Definition toDefaultChannel (p : Promotion) (_ : unit) : Promotion :=
  {| id := id p; name := name p; enabled := enabled p;
     conditions := conditions p; actions := actions p; channels := [1%N] |}.

(** The fields of the input that are not [undefined] overwrite the entity's. *)
Definition patch (p : Promotion) (input : UpdatePromotionInput) : Promotion :=
  {| id := id p;
     name := default (name p) (update_name input);
     enabled := default (enabled p) (update_enabled input);
     conditions := conditions p; actions := actions p; channels := channels p |}.

Definition blackFriday : CreatePromotionInput :=
  {| create_name := "Black Friday"; create_enabled := true;
     create_conditions :=
       [ {| in_code := "minimum_order_amount";
            in_arguments := [ {| in_arg_name := "amount"; in_arg_value := Some "1000" |} ] |} ];
     create_actions :=
       [ {| in_code := "order_percentage_discount";
            in_arguments := [ {| in_arg_name := "discount"; in_arg_value := Some "10" |} ] |} ] |}.

Definition unknownAction : CreatePromotionInput :=
  {| create_name := "Free shipping"; create_enabled := true;
     create_conditions := [];
     create_actions := [ {| in_code := "free_shipping"; in_arguments := [] |} ] |}.

Definition disable (i : ID) : UpdatePromotionInput :=
  {| update_id := i; update_name := None; update_enabled := Some false;
     update_conditions := None; update_actions := None |}.

End Example.

End Promotions.

(** * Properties of the payment reconciliation *)
Module MollieSpec.
Import Mollie.

Local Open Scope list_scope.

Section Reconciliation.

Context {L W : Type} (C : Collaborators L W).

(** ** Running a computation step by step *)

Lemma bind_ok {A B} (m : M L W A) (k : A -> M L W B) w a w1 t1 :
  m w = (Ok a, w1, t1) -> bind L W m k w = after t1 (k a w1).
Proof.
  intros H. unfold bind, after. rewrite H.
  destruct (k a w1) as [[r w2] t2]. reflexivity.
Qed.

Lemma after_after {A} (t0 t1 : list (Event L)) (r : Res A * W * list (Event L)) :
  after t0 (after t1 r) = after (t0 ++ t1) r.
Proof. destruct r as [[x w] t]. unfold after. by rewrite app_assoc. Qed.

Lemma after_trace {A} (t0 : list (Event L)) (r : Res A * W * list (Event L)) :
  (after t0 r).2 = t0 ++ r.2.
Proof. by destruct r as [[x w] t]. Qed.

Lemma log_then {A} (m : LogMsg) (k : M L W A) (w : W) :
  bind L W (log L W LInfo m) (fun _ => k) w = after [Log LInfo m] (k w).
Proof. exact (bind_ok (log L W LInfo m) (fun _ => k) w tt w _ eq_refl). Qed.

Lemma addPaymentRequests_app (t1 t2 : list (Event L)) :
  addPaymentRequests (t1 ++ t2) = addPaymentRequests t1 ++ addPaymentRequests t2.
Proof. unfold addPaymentRequests. apply flat_map_app. Qed.

Lemma transitionRequest_attaches_nothing ctx o :
  addPaymentRequests (transitionRequest (L:=L) ctx o) = [].
Proof.
  unfold transitionRequest.
  by destruct (negb (String.eqb (state o) "ArrangingPayment")
               && negb (String.eqb (state o) "ArrangingAdditionalPayment")).
Qed.

(** ** The lookups *)

(** Once the lookups succeed, the method is the gates and the decision table
    after the five events of the lookups. *)
Lemma handle_resolved ctx input w pm key mo o :
  resolves C w ctx input pm key mo o ->
  handleMollieStatusUpdate C ctx input w
  = after (lookupTrace ctx input key mo)
          (reconcileOrder C (contextFor ctx mo) pm (autoCaptureOf pm) mo o w).
Proof.
  intros (Hpm & Hkey & Htruthy & Hmo & Ho).
  unfold handleMollieStatusUpdate.
  unfold bind at 1. unfold log, emit.
  unfold bind at 1. unfold read at 1. rewrite Hpm, Hkey, Htruthy. cbn [negb].
  unfold bind at 1. unfold read at 1. rewrite Hmo.
  unfold bind at 1. unfold bind at 1. unfold read at 1. rewrite Ho.
  unfold after, lookupTrace.
  destruct (reconcileOrder _ _ _ _ _ _ _) as [[r w2] t2]. reflexivity.
Qed.

(** The condition of the duplicate-payment gate, in the words of the
    specification: a placement timestamp and no payment of that transaction. *)
Lemma paidTwice_true o mo :
  paidTwice o mo = true <->
  is_Some (orderPlacedAt o)
  /\ forall p, In p (payments o) -> transactionId p <> mo_id mo.
Proof.
  unfold paidTwice, findPaymentByTransactionId.
  destruct (orderPlacedAt o) as [t|].
  - destruct (List.find _ _) as [p|] eqn:Hf.
    + split; [discriminate |]. intros [_ H].
      apply find_some in Hf as [Hin Heq]. apply String.eqb_eq in Heq.
      destruct (H p Hin Heq).
    + split; [| done]. intros _. split; [by eexists |].
      intros p Hin Heq. apply (find_none _ _ Hf) in Hin.
      apply String.eqb_neq in Hin. done.
  - split; [discriminate |]. intros [[? ?] _]. discriminate.
Qed.

Lemma matching_payment_passes_gate o mo p :
  findPaymentByTransactionId (mo_id mo) (payments o) = Some p ->
  paidTwice o mo = false.
Proof. intros H. unfold paidTwice. rewrite H. by destruct (orderPlacedAt o). Qed.

Lemma found_payment_matches id ps p :
  findPaymentByTransactionId id ps = Some p -> transactionId p = id.
Proof. intros Hf. apply find_some in Hf as [_ Heq]. by apply String.eqb_eq in Heq. Qed.

(** ** [addPayment] and [settleExistingPayment] *)

Lemma addPayment_accepted ctx o amount md pmCode status w w2 o2 :
  storeAccepts C w ctx o (paymentInput amount md pmCode status) w2 o2 ->
  addPayment C ctx o amount md pmCode status w
  = (Ok o2, w2,
     transitionRequest ctx o
       ++ [AddPaymentToOrder ctx (order_id o) (paymentInput amount md pmCode status)]).
Proof.
  intros (w1 & Htr & Hadd). unfold addPayment, transitionRequest.
  destruct (negb (String.eqb (state o) "ArrangingPayment")
            && negb (String.eqb (state o) "ArrangingAdditionalPayment")).
  - destruct Htr as [o1 Htr].
    unfold bind, call, ret. rewrite Htr. cbn. rewrite Hadd. reflexivity.
  - subst w1. unfold bind, call, ret. cbn. rewrite Hadd. reflexivity.
Qed.

Lemma addPayment_no_provider ctx o amount md pmCode status w :
  existsb callsProvider (addPayment C ctx o amount md pmCode status w).2 = false.
Proof.
  unfold addPayment, bind, call, ret, throw.
  destruct (negb _ && negb _).
  - destruct (orderService_transitionToState _ _ _ _ _) as [w1 [e | o1]]; [done |].
    by destruct (orderService_addPaymentToOrder _ _ _ _ _) as [w2 [e | o2]].
  - by destruct (orderService_addPaymentToOrder _ _ _ _ _) as [w2 [e | o2]].
Qed.

(** [addPayment] asks for the payment it was given, unless the order service
    refuses the transition that comes first. *)
Lemma addPayment_requests ctx o amount md pmCode status w :
  addPaymentRequests (addPayment C ctx o amount md pmCode status w).2
  = [paymentInput amount md pmCode status]
  \/ exists w1 e,
      orderService_transitionToState C w ctx (order_id o) "ArrangingPayment"
      = (w1, inl e)
      /\ addPayment C ctx o amount md pmCode status w
         = (Throw (StateTransitionError (code o) e), w1,
            [TransitionToState ctx (order_id o) "ArrangingPayment"]).
Proof.
  unfold addPayment, bind, call, ret, throw.
  destruct (negb _ && negb _).
  - destruct (orderService_transitionToState _ _ _ _ _) as [w1 [e | o1]] eqn:Htr.
    + right. by exists w1, e.
    + left. by destruct (orderService_addPaymentToOrder _ _ _ _ _) as [w2 [e | o2]].
  - left. by destruct (orderService_addPaymentToOrder _ _ _ _ _) as [w2 [e | o2]].
Qed.

Lemma reads_attach_nothing (t : list (Event L)) :
  existsb changesOrderStore t = false -> addPaymentRequests t = [].
Proof.
  induction t as [| e t IH]; [done |]. cbn.
  destruct e; cbn; try discriminate; exact IH.
Qed.

(** The payment that the re-read order has for the transaction id is the one
    that is settled. *)
Lemma settleExistingPayment_found ctx o id w p :
  findPaymentByTransactionId id
    (payments (entityHydrator_hydrate C w ctx o ["payments"])) = Some p ->
  settleExistingPayment C ctx o id w
  = (match (orderService_settlePayment C w ctx (payment_id p)).2 with
     | inl e =>
         if truthy (Some (message e))
         then Throw (SettlementError (payment_id p)
                       (code (entityHydrator_hydrate C w ctx o ["payments"])) e)
         else Ok tt
     | inr _ => Ok tt
     end,
     (orderService_settlePayment C w ctx (payment_id p)).1,
     [ Hydrate ctx (order_id o) ["payments"]; SettlePayment ctx (payment_id p) ]).
Proof.
  intros Hf. unfold settleExistingPayment, bind at 1, read. rewrite Hf.
  unfold bind, call.
  destruct (orderService_settlePayment _ _ _ _) as [w' [e|p']]; cbn.
  - by destruct (String.eqb (message e) "").
  - reflexivity.
Qed.

Lemma settleExistingPayment_missing ctx o id w :
  findPaymentByTransactionId id
    (payments (entityHydrator_hydrate C w ctx o ["payments"])) = None ->
  settleExistingPayment C ctx o id w
  = (Throw (PaymentNotFoundError id
              (code (entityHydrator_hydrate C w ctx o ["payments"]))),
     w, [ Hydrate ctx (order_id o) ["payments"] ]).
Proof.
  intros Hf. unfold settleExistingPayment, bind at 1, read. rewrite Hf. reflexivity.
Qed.

Lemma settleExistingPayment_attaches_nothing ctx o id w :
  addPaymentRequests (settleExistingPayment C ctx o id w).2 = [].
Proof.
  destruct (findPaymentByTransactionId id
              (payments (entityHydrator_hydrate C w ctx o ["payments"]))) eqn:Hf.
  - by rewrite (settleExistingPayment_found _ _ _ _ _ Hf).
  - by rewrite (settleExistingPayment_missing _ _ _ _ Hf).
Qed.

(** ** The validation of a payment intent only reads *)

Lemma quiet_ret {A} (a : A) : quiet (ret L W a).
Proof. intros w. by eexists _, _. Qed.

Lemma quiet_throw {A} e : quiet (throw (A:=A) L W e).
Proof. intros w. by eexists _, _. Qed.

Lemma quiet_read {A} e (f : W -> A) :
  callsProvider e = false -> changesOrderStore e = false -> quiet (read L W e f).
Proof.
  intros H1 H2 w. unfold read. eexists _, _. split; [reflexivity |].
  unfold existsb. by rewrite H1, H2.
Qed.

Lemma quiet_log l m : quiet (log L W l m).
Proof. intros w. by eexists _, _. Qed.

Lemma quiet_bind {A B} (m : M L W A) (k : A -> M L W B) :
  quiet m -> (forall a, quiet (k a)) -> quiet (bind L W m k).
Proof.
  intros Hm Hk w. destruct (Hm w) as (r & t & Hrun & Hp & Hc).
  unfold bind. rewrite Hrun. destruct r as [a | e].
  - destruct (Hk a w) as (r2 & t2 & Hrun2 & Hp2 & Hc2). rewrite Hrun2.
    eexists _, _. split; [reflexivity |].
    rewrite !existsb_app. by rewrite Hp, Hp2, Hc, Hc2.
  - by eexists _, _.
Qed.

Lemma quiet_catch {A} (m : M L W A) (h : Error -> M L W A) :
  quiet m -> (forall e, quiet (h e)) -> quiet (catch L W m h).
Proof.
  intros Hm Hh w. destruct (Hm w) as (r & t & Hrun & Hp & Hc).
  unfold catch. rewrite Hrun. destruct r as [a | e].
  - by eexists _, _.
  - destruct (Hh e w) as (r2 & t2 & Hrun2 & Hp2 & Hc2). rewrite Hrun2.
    eexists _, _. split; [reflexivity |].
    rewrite !existsb_app. by rewrite Hp, Hp2, Hc, Hc2.
Qed.

Lemma quiet_promiseAll2 {A B} (m1 : M L W A) (m2 : M L W B) :
  quiet m1 -> quiet m2 -> quiet (promiseAll2 L W m1 m2).
Proof.
  intros H1 H2 w. destruct (H1 w) as (r & t & Hrun & Hp & Hc).
  destruct (H2 w) as (r2 & t2 & Hrun2 & Hp2 & Hc2).
  unfold promiseAll2. rewrite Hrun, Hrun2.
  eexists _, _. split; [reflexivity |].
  rewrite !existsb_app. by rewrite Hp, Hp2, Hc, Hc2.
Qed.

Ltac quiet_step :=
  first
    [ apply quiet_ret
    | apply quiet_throw
    | apply quiet_log
    | apply quiet_read; reflexivity
    | apply quiet_promiseAll2
    | apply quiet_bind; [| intros ?]
    | apply quiet_catch; [| intros ?]
    | match goal with
      | |- quiet (match ?x with _ => _ end) => destruct x
      end ].

Lemma validateIntent_quiet ctx input : quiet (validateIntent C ctx input).
Proof.
  unfold validateIntent, getOrder, getPaymentMethod, canTransitionTo,
    assertFound, refuseWithoutApiKey.
  repeat quiet_step.
Qed.

(** ** The gates *)

(** C1.  When the lookups of a notification succeed and the status of the
    provider order is not one of authorized, paid, completed, or the state of
    the local order is not one of AddingItems, ArrangingPayment,
    ArrangingAdditionalPayment, PaymentAuthorized, Draft, then
    [handleMollieStatusUpdate] returns normally after one more log line: the
    state of the collaborators is the one it started from, and its trace holds
    no state transition, no payment, no settlement. *)
Theorem ignored_status_or_state_is_noop ctx input w pm key mo o :
  resolves C w ctx input pm key mo o ->
  includesStatus mollieStatesThatRequireAction (mo_status mo) = false
  \/ includesState vendureStatesThatRequireAction (state o) = false ->
  exists level msg,
    let t := lookupTrace (L:=L) ctx input key mo ++ [Log level msg] in
    handleMollieStatusUpdate C ctx input w = (Ok tt, w, t)
    /\ existsb changesOrderStore t = false
    /\ addPaymentRequests t = [].
Proof.
  intros Hres Hgate. rewrite (handle_resolved _ _ _ _ _ _ _ Hres).
  unfold reconcileOrder.
  destruct (includesStatus mollieStatesThatRequireAction (mo_status mo)) eqn:Hs;
    cbn [negb].
  - destruct Hgate as [Hgate | Hgate]; [discriminate |].
    destruct (paidTwice o mo).
    + eexists _, _. repeat split.
    + rewrite Hgate. eexists _, _. repeat split.
  - eexists _, _. repeat split.
Qed.

(** C2.  When the status of the provider order is one that requires action,
    the local order carries a placement timestamp and none of its payments
    has the id of the provider order as its transaction id, then
    [handleMollieStatusUpdate] logs an error and returns: the state of the
    collaborators is unchanged, nothing in the trace changes the order store,
    and the only call to the provider is the fetch of the order, so that no
    refund is issued. *)
Theorem double_payment_is_only_logged ctx input w pm key mo o :
  resolves C w ctx input pm key mo o ->
  includesStatus mollieStatesThatRequireAction (mo_status mo) = true ->
  paidTwice o mo = true ->
  let t := lookupTrace (L:=L) ctx input key mo
             ++ [Log LError (MsgAlreadyPaid (code o) (mo_id mo))] in
  handleMollieStatusUpdate C ctx input w = (Ok tt, w, t)
  /\ existsb changesOrderStore t = false
  /\ List.filter callsProvider t = [MollieOrdersGet key (orderId input)].
Proof.
  intros Hres Hs Hp. rewrite (handle_resolved _ _ _ _ _ _ _ Hres).
  unfold reconcileOrder. rewrite Hs, Hp. repeat split.
Qed.

(** C7.  When a notification passes the three gates and no row of the decision
    table matches (the status is not paid; not authorized with AddingItems;
    not completed with PaymentAuthorized), [handleMollieStatusUpdate] throws
    the unhandled-transition error, except when auto-capture is configured and
    the status is completed: then it returns and has done nothing. *)
Theorem unmatched_pair_throws_unless_auto_capture ctx input w pm key mo o :
  resolves C w ctx input pm key mo o ->
  includesStatus mollieStatesThatRequireAction (mo_status mo) = true ->
  paidTwice o mo = false ->
  includesState vendureStatesThatRequireAction (state o) = true ->
  OrderStatus_eqb (mo_status mo) paid = false ->
  String.eqb (state o) "AddingItems" && OrderStatus_eqb (mo_status mo) authorized
    = false ->
  String.eqb (state o) "PaymentAuthorized"
    && OrderStatus_eqb (mo_status mo) completed = false ->
  handleMollieStatusUpdate C ctx input w
  = (if autoCaptureOf pm && OrderStatus_eqb (mo_status mo) completed
     then Ok tt
     else Throw (UnhandledTransitionError (mo_status mo) (code o) (state o)),
     w, lookupTrace ctx input key mo).
Proof.
  intros Hres Hs Hp Hst H1 H2 H3. rewrite (handle_resolved _ _ _ _ _ _ _ Hres).
  unfold reconcileOrder. rewrite Hs, Hp, Hst, H1, H2, H3. cbn [negb].
  destruct (autoCaptureOf pm && OrderStatus_eqb (mo_status mo) completed);
    unfold after, ret, throw; by rewrite app_nil_r.
Qed.

(** C9.  When the payment method of the notification exists and the value of
    its [apiKey] argument is missing (or empty), [handleMollieStatusUpdate]
    throws; by then it has logged the notification and looked the payment
    method up, and nothing else: no provider order is fetched, no order is
    looked up. *)
Theorem missing_api_key_throws_before_fetch ctx input w pm :
  paymentMethodService_findOne C w ctx (paymentMethodId input) = Some pm ->
  truthy (findArg "apiKey" (pm_handler_args pm)) = false ->
  handleMollieStatusUpdate C ctx input w
  = (Throw (NoApiKeyError (pm_id pm) (channelToken ctx)), w,
     [ Log LInfo (MsgReceivedStatusUpdate (channelToken ctx) (orderId input));
       PaymentMethodFindOne ctx (paymentMethodId input) ]).
Proof.
  intros Hpm Hkey. unfold handleMollieStatusUpdate.
  unfold bind at 1. unfold log, emit. unfold bind at 1. unfold read at 1.
  rewrite Hpm. destruct (findArg _ _) as [k|]; [| reflexivity].
  rewrite Hkey. reflexivity.
Qed.

(** ** The decision table *)

(** C3, as amended.  A notification for a local order that already has a
    payment with the id of the provider order as its transaction id passes
    the duplicate-payment gate, and no payment is attached unless the status
    is paid and the state is eligible, or the status is authorized and the
    state is AddingItems. *)
Theorem matching_payment_attaches_only_on_attaching_rows
    ctx input w pm key mo o p :
  resolves C w ctx input pm key mo o ->
  findPaymentByTransactionId (mo_id mo) (payments o) = Some p ->
  OrderStatus_eqb (mo_status mo) paid
    && includesState vendureStatesThatRequireAction (state o) = false ->
  String.eqb (state o) "AddingItems" && OrderStatus_eqb (mo_status mo) authorized
    = false ->
  paidTwice o mo = false
  /\ addPaymentRequests (handleMollieStatusUpdate C ctx input w).2 = [].
Proof.
  intros Hres Hf Hpaid Hauth.
  pose proof (matching_payment_passes_gate _ _ _ Hf) as Hgate.
  split; [exact Hgate |].
  rewrite (handle_resolved _ _ _ _ _ _ _ Hres), after_trace, addPaymentRequests_app.
  unfold reconcileOrder. rewrite Hgate, Hauth.
  destruct (includesStatus _ _); cbn [negb]; [| reflexivity].
  destruct (includesState _ _); cbn [negb]; [| reflexivity].
  rewrite andb_true_r in Hpaid. rewrite Hpaid.
  destruct (String.eqb (state o) "PaymentAuthorized"
            && OrderStatus_eqb (mo_status mo) completed).
  - apply settleExistingPayment_attaches_nothing.
  - by destruct (autoCaptureOf pm && OrderStatus_eqb (mo_status mo) completed).
Qed.

(** C4, as amended.  When the status of the provider order is paid, the local
    order is in an eligible state and passes the duplicate-payment gate, and
    the order service accepts the transition to ArrangingPayment (asked for
    when the order is not arranging a payment yet) and the payment, then
    [handleMollieStatusUpdate] asks for exactly one payment, with status
    Settled and the amount of the provider order in cents, and returns. *)
Theorem paid_attaches_one_settled_payment ctx input w pm key mo o w2 o2 :
  resolves C w ctx input pm key mo o ->
  mo_status mo = paid ->
  includesState vendureStatesThatRequireAction (state o) = true ->
  paidTwice o mo = false ->
  storeAccepts C w (contextFor ctx mo) o
    (paymentInput (amountToCents C (mo_amount mo)) (metadataOfOrder mo)
                  (pm_code pm) Settled) w2 o2 ->
  let request :=
    paymentInput (amountToCents C (mo_amount mo)) (metadataOfOrder mo)
                 (pm_code pm) Settled in
  let t := lookupTrace ctx input key mo
             ++ transitionRequest (contextFor ctx mo) o
             ++ [AddPaymentToOrder (contextFor ctx mo) (order_id o) request] in
  handleMollieStatusUpdate C ctx input w = (Ok tt, w2, t)
  /\ addPaymentRequests t = [request]
  /\ md_status (pi_metadata request) = Settled
  /\ md_amount (pi_metadata request) = amountToCents C (mo_amount mo).
Proof.
  intros Hres Hs Hst Hp Hacc request t. subst request t.
  split; [| split; [| done]].
  - rewrite (handle_resolved _ _ _ _ _ _ _ Hres).
    unfold reconcileOrder. rewrite Hs, Hp, Hst.
    cbn [includesStatus mollieStatesThatRequireAction existsb OrderStatus_eqb
         orb negb].
    rewrite (bind_ok _ _ _ _ _ _ (addPayment_accepted _ _ _ _ _ _ _ _ _ Hacc)).
    unfold ret, after. by rewrite app_nil_r.
  - rewrite !addPaymentRequests_app.
    by rewrite transitionRequest_attaches_nothing.
Qed.

(** C5, as amended.  When the status of the provider order is authorized, the
    local order is in AddingItems and passes the duplicate-payment gate, and
    the order service accepts the transition to ArrangingPayment and the
    payment, then exactly one payment is asked for, with status Authorized.
    Without auto-capture the method returns and no settlement is asked for.
    With auto-capture it goes on to re-read the order that the order service
    returned: the payment of that order whose transaction id is the id of the
    provider order is the one whose settlement is asked for, at once; when
    there is none, the payment-not-found error is thrown. *)
Theorem authorized_attaches_then_captures
    ctx input w pm key mo o w1 o1 w2 o2 :
  resolves C w ctx input pm key mo o ->
  mo_status mo = authorized ->
  state o = "AddingItems" ->
  paidTwice o mo = false ->
  let ctx' := contextFor ctx mo in
  let request :=
    paymentInput (amountToCents C (mo_amount mo)) (metadataOfOrder mo)
                 (pm_code pm) Authorized in
  let t := lookupTrace ctx input key mo
             ++ [ TransitionToState ctx' (order_id o) "ArrangingPayment";
                  AddPaymentToOrder ctx' (order_id o) request ] in
  orderService_transitionToState C w ctx' (order_id o) "ArrangingPayment"
    = (w1, inr o1) ->
  orderService_addPaymentToOrder C w1 ctx' (order_id o) request = (w2, inr o2) ->
  addPaymentRequests (handleMollieStatusUpdate C ctx input w).2 = [request]
  /\ md_status (pi_metadata request) = Authorized
  /\ (autoCaptureOf pm = false ->
      handleMollieStatusUpdate C ctx input w = (Ok tt, w2, t)
      /\ settlementCalls t = [])
  /\ (autoCaptureOf pm = true ->
      match findPaymentByTransactionId (mo_id mo)
              (payments (entityHydrator_hydrate C w2 ctx' o2 ["payments"])) with
      | Some p =>
          transactionId p = mo_id mo
          /\ exists r,
            handleMollieStatusUpdate C ctx input w
            = (r, (orderService_settlePayment C w2 ctx' (payment_id p)).1,
               t ++ [ Log LInfo (MsgAutoCapturing (code o2));
                      Hydrate ctx' (order_id o2) ["payments"];
                      SettlePayment ctx' (payment_id p) ])
      | None =>
          handleMollieStatusUpdate C ctx input w
          = (Throw (PaymentNotFoundError (mo_id mo)
                      (code (entityHydrator_hydrate C w2 ctx' o2 ["payments"]))),
             w2,
             t ++ [ Log LInfo (MsgAutoCapturing (code o2));
                    Hydrate ctx' (order_id o2) ["payments"] ])
      end).
Proof.
  intros Hres Hs Hst Hp ctx' request t Htr Hadd.
  assert (Hacc : storeAccepts C w ctx' o request w2 o2).
  { exists w1. rewrite Hst. cbn. eauto. }
  pose proof (addPayment_accepted _ _ _ _ _ _ _ _ _ Hacc) as Hrun.
  assert (Hreq : transitionRequest (L:=L) ctx' o
                 = [TransitionToState ctx' (order_id o) "ArrangingPayment"]).
  { unfold transitionRequest. by rewrite Hst. }
  rewrite Hreq in Hrun.
  assert (Hhandle : handleMollieStatusUpdate C ctx input w
          = after t (if autoCaptureOf pm
                     then bind L W (log L W LInfo (MsgAutoCapturing (code o2)))
                            (fun _ => settleExistingPayment C ctx' o2 (mo_id mo)) w2
                     else (Ok tt, w2, []))).
  { rewrite (handle_resolved _ _ _ _ _ _ _ Hres).
    unfold reconcileOrder. rewrite Hs, Hp, Hst.
    cbn [includesStatus includesState mollieStatesThatRequireAction
         vendureStatesThatRequireAction existsb OrderStatus_eqb orb andb negb
         String.eqb Ascii.eqb Bool.eqb].
    rewrite (bind_ok _ _ _ _ _ _ Hrun), after_after, andb_true_r.
    by destruct (autoCaptureOf pm). }
  split; [| split; [done |]; split].
  - rewrite Hhandle, after_trace. subst t.
    rewrite !addPaymentRequests_app.
    cbn [addPaymentRequests flat_map lookupTrace app].
    destruct (autoCaptureOf pm); [| done].
    by rewrite log_then, after_trace, addPaymentRequests_app,
         settleExistingPayment_attaches_nothing.
  - intros Hauto. rewrite Hhandle, Hauto. unfold after. by rewrite app_nil_r.
  - intros Hauto. rewrite Hhandle, Hauto, log_then, after_after.
    destruct (findPaymentByTransactionId _ _) as [p|] eqn:Hf.
    + split; [exact (found_payment_matches _ _ _ Hf) |].
      rewrite (settleExistingPayment_found _ _ _ _ _ Hf). unfold after.
      eexists. by rewrite <- app_assoc.
    + rewrite (settleExistingPayment_missing _ _ _ _ Hf). unfold after.
      by rewrite <- app_assoc.
Qed.

(** C6, as amended.  When the status of the provider order is completed, the
    local order is in PaymentAuthorized and passes the duplicate-payment gate,
    [handleMollieStatusUpdate] runs [settleExistingPayment], which re-reads
    the payments of the order: the payment whose transaction id is the id of
    the provider order is the one whose settlement is asked for, and when the
    re-read order has none the payment-not-found error is thrown. *)
Theorem completed_settles_the_matching_payment ctx input w pm key mo o :
  resolves C w ctx input pm key mo o ->
  mo_status mo = completed ->
  state o = "PaymentAuthorized" ->
  paidTwice o mo = false ->
  let ctx' := contextFor ctx mo in
  let reread := entityHydrator_hydrate C w ctx' o ["payments"] in
  handleMollieStatusUpdate C ctx input w
  = after (lookupTrace ctx input key mo)
          (settleExistingPayment C ctx' o (mo_id mo) w)
  /\ match findPaymentByTransactionId (mo_id mo) (payments reread) with
     | Some p =>
         transactionId p = mo_id mo
         /\ exists r,
           handleMollieStatusUpdate C ctx input w
           = (r, (orderService_settlePayment C w ctx' (payment_id p)).1,
              lookupTrace ctx input key mo
                ++ [ Hydrate ctx' (order_id o) ["payments"];
                     SettlePayment ctx' (payment_id p) ])
     | None =>
         handleMollieStatusUpdate C ctx input w
         = (Throw (PaymentNotFoundError (mo_id mo) (code reread)), w,
            lookupTrace ctx input key mo
              ++ [ Hydrate ctx' (order_id o) ["payments"] ])
     end.
Proof.
  intros Hres Hs Hst Hp ctx' reread.
  assert (Hhandle : handleMollieStatusUpdate C ctx input w
          = after (lookupTrace ctx input key mo)
                  (settleExistingPayment C ctx' o (mo_id mo) w)).
  { rewrite (handle_resolved _ _ _ _ _ _ _ Hres).
    unfold reconcileOrder. by rewrite Hs, Hp, Hst. }
  split; [exact Hhandle |]. rewrite Hhandle. subst reread.
  destruct (findPaymentByTransactionId _ _) as [p|] eqn:Hf.
  - split; [exact (found_payment_matches _ _ _ Hf) |].
    rewrite (settleExistingPayment_found _ _ _ _ _ Hf). by eexists.
  - by rewrite (settleExistingPayment_missing _ _ _ _ Hf).
Qed.

(** ** The payment intent *)

(** C8.  Once [createPaymentIntent] has validated its input, the amount to pay
    is the total of the order with tax minus the amount that its payments
    cover.  When it is zero, the method is [addPayment] with the amount 0 and
    the status Settled, after which the redirect URL is returned; its trace
    holds no call to the provider, so that no provider order is created.  The
    order service is asked to attach that one payment, of amount 0, of status
    Settled and of the code of the payment method, under the context of an
    administrator: when it accepts, the run is the validation, the transition
    that an order in another state needs, and that request, and the redirect
    URL is returned; the request is missing only from the run in which the
    order service refuses the transition, which throws.
    Otherwise the next call is the creation of a provider order for that
    amount, and when the provider answers with an order that has a checkout
    URL, that URL is returned. *)
Theorem outstanding_amount_decides_intent ctx input w p w0 t0 :
  validateIntent C ctx input w = (Ok (inr p), w0, t0) ->
  let o := p_order p in
  let pm := p_paymentMethod p in
  let alreadyPaid := totalCoveredByPayments C o in
  let amountToPay := totalWithTax o - alreadyPaid in
  let params :=
    orderInputFor C ctx o pm (p_redirectUrl p) (p_vendureHost p)
      (p_billingAddress p) amountToPay alreadyPaid
      (in_molliePaymentMethodCode input) in
  let adminCtx := adminContext ctx (languageCode ctx) in
  let request := paymentInput 0 settledWithoutMollie (pm_code pm) Settled in
  (amountToPay = 0 ->
   (createPaymentIntent C ctx input w
    = after t0
        match addPayment C (adminContext ctx (languageCode ctx)) o 0
                settledWithoutMollie (pm_code pm) Settled w with
        | (Ok _, w', t) => (Ok (IntentUrl (p_redirectUrl p)), w', t)
        | (Throw e, w', t) => (Throw e, w', t)
        end
    /\ existsb callsProvider (createPaymentIntent C ctx input w).2 = false)
   /\ (pi_method request = pm_code pm
       /\ md_amount (pi_metadata request) = 0
       /\ md_status (pi_metadata request) = Settled
       /\ md_method (pi_metadata request) = Some "Settled without Mollie")
   /\ (forall w2 o2,
        storeAccepts C w adminCtx o request w2 o2 ->
        createPaymentIntent C ctx input w
        = (Ok (IntentUrl (p_redirectUrl p)), w2,
           t0 ++ transitionRequest adminCtx o
              ++ [AddPaymentToOrder adminCtx (order_id o) request]))
   /\ (addPaymentRequests (createPaymentIntent C ctx input w).2 = [request]
       \/ exists w1 e,
           orderService_transitionToState C w adminCtx (order_id o)
             "ArrangingPayment" = (w1, inl e)
           /\ createPaymentIntent C ctx input w
              = (Throw (StateTransitionError (code o) e), w1,
                 t0 ++ [TransitionToState adminCtx (order_id o)
                          "ArrangingPayment"])))
  /\ (amountToPay <> 0 ->
      exists r w' t,
        createPaymentIntent C ctx input w
        = (r, w', t0 ++ MollieOrdersCreate (p_apiKey p) params :: t)
        /\ cp_amount params = toAmount C amountToPay (currencyCode o)
        /\ forall w1 mo url,
            mollie_orders_create C w (p_apiKey p) params = (w1, inr mo) ->
            mo_checkoutUrl mo = Some url ->
            truthy (Some url) = true ->
            r = Ok (IntentUrl url)).
Proof.
  intros Hv o pm alreadyPaid amountToPay params adminCtx request.
  destruct (validateIntent_quiet ctx input w) as (r0 & t0' & Hq & Hprov & Hstore).
  rewrite Hv in Hq. injection Hq as <- -> <-.
  assert (Hrun : createPaymentIntent C ctx input w
          = after t0 (payOutstanding C ctx o pm (p_redirectUrl p) (p_apiKey p)
                        (p_vendureHost p) (p_billingAddress p)
                        (in_molliePaymentMethodCode input) w)).
  { unfold createPaymentIntent. by rewrite (bind_ok _ _ _ _ _ _ Hv). }
  split.
  - intros Hzero.
    assert (Hpay : payOutstanding C ctx o pm (p_redirectUrl p) (p_apiKey p)
                     (p_vendureHost p) (p_billingAddress p)
                     (in_molliePaymentMethodCode input) w
            = match addPayment C adminCtx o 0
                      settledWithoutMollie (pm_code pm) Settled w with
              | (Ok _, w', t) => (Ok (IntentUrl (p_redirectUrl p)), w', t)
              | (Throw e, w', t) => (Throw e, w', t)
              end).
    { unfold payOutstanding. fold alreadyPaid. fold amountToPay. rewrite Hzero.
      cbn [Z.eqb]. unfold bind. fold adminCtx.
      destruct (addPayment _ _ _ _ _ _ _ _) as [[[o2 | e] w'] t]; [| done].
      unfold ret. by rewrite app_nil_r. }
    rewrite Hrun, Hpay.
    pose proof (addPayment_no_provider adminCtx o 0
                  settledWithoutMollie (pm_code pm) Settled w) as Hno.
    pose proof (addPayment_requests adminCtx o 0
                  settledWithoutMollie (pm_code pm) Settled w) as Hreq.
    fold request in Hreq.
    split; [| split; [done |]; split].
    + split; [done |].
      rewrite after_trace, existsb_app, Hprov.
      by destruct (addPayment _ _ _ _ _ _ _ _) as [[[o2 | e] w'] t].
    + intros w2 o2 Hacc.
      by rewrite (addPayment_accepted _ _ _ _ _ _ _ _ _ Hacc).
    + rewrite after_trace, addPaymentRequests_app,
        (reads_attach_nothing _ Hstore), app_nil_l.
      destruct Hreq as [Hreq | (w1 & e & Htr & Hthrow)].
      * left. by destruct (addPayment _ _ _ _ _ _ _ _) as [[[o2 | e] w'] t].
      * right. exists w1, e. split; [exact Htr |]. by rewrite Hthrow.
  - intros Hne. rewrite Hrun. unfold payOutstanding.
    fold alreadyPaid. fold amountToPay. fold params.
    destruct (Z.eqb_spec amountToPay 0) as [Heq | _]; [done |].
    unfold bind at 1. unfold call at 1.
    destruct (mollie_orders_create C w (p_apiKey p) params)
      as [w1 [msg | mo]] eqn:Hc.
    + eexists _, _, _. split; [reflexivity |]. split; [done |].
      intros ? ? ? [=].
    + destruct (bind _ _ _ _ w1) as [[r w'] t] eqn:Hrest.
      eexists r, w', t. split; [reflexivity |]. split; [done |].
      intros w1' mo' url [= <- <-] Hurl Htruthy.
      revert Hrest. unfold bind, call, log, emit, ret.
      destruct (orderService_updateCustomFields _ _ _ _ _) as [w3 [msg|]];
        rewrite Hurl, Htruthy; by intros [= <- _ _].
Qed.

End Reconciliation.

(** ** The theorems on the in-memory store *)

Import InMemory.

Lemma ignored_status_or_state_is_noop_witness :
  let w := shop "false" expiredOrder arranging in
  exists level msg,
    let t := lookupTrace (L:=unit) ctx0 (notification expiredOrder) "test_key"
               expiredOrder ++ [Log level msg] in
    handleMollieStatusUpdate collaborators ctx0 (notification expiredOrder) w
    = (Ok tt, w, t)
    /\ existsb changesOrderStore t = false
    /\ addPaymentRequests t = [].
Proof.
  intros w.
  apply (ignored_status_or_state_is_noop collaborators ctx0
           (notification expiredOrder) w (methodWith "false") "test_key"
           expiredOrder arranging).
  - repeat split.
  - left. reflexivity.
Defined.

Lemma double_payment_is_only_logged_witness :
  let w := shop "false" paidOrder settledByAnother in
  handleMollieStatusUpdate collaborators ctx0 (notification paidOrder) w
  = (Ok tt, w,
     lookupTrace ctx0 (notification paidOrder) "test_key" paidOrder
       ++ [Log LError (MsgAlreadyPaid "CODE7" "ord_1")]).
Proof.
  intros w.
  refine (proj1 (double_payment_is_only_logged collaborators ctx0
                   (notification paidOrder) w (methodWith "false") "test_key"
                   paidOrder settledByAnother _ _ _)).
  - repeat split.
  - reflexivity.
  - reflexivity.
Defined.

Lemma unmatched_pair_throws_unless_auto_capture_witness :
  let w := shop "false" completedOrder addingItems in
  handleMollieStatusUpdate collaborators ctx0 (notification completedOrder) w
  = (Throw (UnhandledTransitionError completed "CODE7" "AddingItems"), w,
     lookupTrace ctx0 (notification completedOrder) "test_key" completedOrder).
Proof.
  intros w.
  refine (unmatched_pair_throws_unless_auto_capture collaborators ctx0
            (notification completedOrder) w (methodWith "false") "test_key"
            completedOrder addingItems _ _ _ _ _ _ _).
  - repeat split.
  - reflexivity.
  - reflexivity.
  - reflexivity.
  - reflexivity.
  - reflexivity.
  - reflexivity.
Defined.

Lemma missing_api_key_throws_before_fetch_witness :
  let w := shop "false" paidOrder arranging in
  handleMollieStatusUpdate collaborators ctx0 toUnconfigured w
  = (Throw (NoApiKeyError "2" "default-channel"), w,
     [ Log LInfo (MsgReceivedStatusUpdate "default-channel" "ord_1");
       PaymentMethodFindOne ctx0 "2" ]).
Proof.
  intros w.
  refine (missing_api_key_throws_before_fetch collaborators ctx0 toUnconfigured w
            methodWithoutKey _ _).
  - reflexivity.
  - reflexivity.
Defined.

Lemma matching_payment_attaches_only_on_attaching_rows_witness :
  let w := shop "false" paidOrder settledAlready in
  paidTwice settledAlready paidOrder = false
  /\ addPaymentRequests
       (handleMollieStatusUpdate collaborators ctx0 (notification paidOrder) w).2
     = [].
Proof.
  intros w.
  refine (matching_payment_attaches_only_on_attaching_rows collaborators ctx0
            (notification paidOrder) w (methodWith "false") "test_key" paidOrder
            settledAlready (payment "ord_1" 1000 "Settled") _ _ _ _).
  - repeat split.
  - reflexivity.
  - reflexivity.
  - reflexivity.
Defined.

Lemma paid_attaches_one_settled_payment_witness :
  let w := shop "false" paidOrder arranging in
  let request := paymentInput 1000 (metadataOfOrder paidOrder) "mollie" Settled in
  let ctx' := contextFor ctx0 paidOrder in
  handleMollieStatusUpdate collaborators ctx0 (notification paidOrder) w
  = (Ok tt, (attach w "7" request).1,
     lookupTrace ctx0 (notification paidOrder) "test_key" paidOrder
       ++ [AddPaymentToOrder ctx' "7" request]).
Proof.
  intros w request ctx'.
  refine (proj1 (paid_attaches_one_settled_payment collaborators ctx0
                   (notification paidOrder) w (methodWith "false") "test_key"
                   paidOrder arranging (attach w "7" request).1
                   (answered arranging (attach w "7" request).2) _ _ _ _ _)).
  - repeat split.
  - reflexivity.
  - reflexivity.
  - reflexivity.
  - exists w. split; reflexivity.
Defined.

Lemma authorized_attaches_then_captures_witness :
  let w := shop "true" authorizedOrder addingItems in
  addPaymentRequests
    (handleMollieStatusUpdate collaborators ctx0 (notification authorizedOrder) w).2
  = [paymentInput 1000 (metadataOfOrder authorizedOrder) "mollie" Authorized].
Proof.
  intros w.
  pose (request := paymentInput 1000 (metadataOfOrder authorizedOrder) "mollie"
                     Authorized).
  pose (r1 := transition w "7" "ArrangingPayment").
  pose (r2 := attach r1.1 "7" request).
  refine (proj1 (authorized_attaches_then_captures collaborators ctx0
                   (notification authorizedOrder) w (methodWith "true") "test_key"
                   authorizedOrder addingItems r1.1 (answered addingItems r1.2)
                   r2.1 (answered addingItems r2.2) _ _ _ _ _ _)).
  - repeat split.
  - reflexivity.
  - reflexivity.
  - reflexivity.
  - reflexivity.
  - reflexivity.
Defined.

Lemma completed_settles_the_matching_payment_witness :
  let w := shop "false" completedOrder authorizedLocally in
  handleMollieStatusUpdate collaborators ctx0 (notification completedOrder) w
  = (Ok tt, (settle w "pay_ord_1").1,
     lookupTrace ctx0 (notification completedOrder) "test_key" completedOrder
       ++ [ Hydrate (contextFor ctx0 completedOrder) "7" ["payments"];
            SettlePayment (contextFor ctx0 completedOrder) "pay_ord_1" ]).
Proof.
  intros w.
  refine (proj1 (completed_settles_the_matching_payment collaborators ctx0
                   (notification completedOrder) w (methodWith "false") "test_key"
                   completedOrder authorizedLocally _ _ _ _)).
  - repeat split.
  - reflexivity.
  - reflexivity.
  - reflexivity.
Defined.

Lemma outstanding_amount_decides_intent_witness :
  let w := shop "false" paidOrder coveredOrder in
  let run := createPaymentIntent collaborators ctx0 (intentFor "7") w in
  let adminCtx := adminContext ctx0 "en" in
  let request := paymentInput 0 settledWithoutMollie "mollie" Settled in
  existsb callsProvider run.2 = false
  /\ (exists w2 t0,
        run = (Ok (IntentUrl "https://shop.example/done/CODE7"), w2,
               t0 ++ [TransitionToState adminCtx "7" "ArrangingPayment";
                      AddPaymentToOrder adminCtx "7" request]))
  /\ addPaymentRequests run.2 = [request].
Proof.
  intros w run adminCtx request.
  pose proof (outstanding_amount_decides_intent collaborators ctx0
                (intentFor "7") w _ _ _ eq_refl) as H.
  cbv zeta in H. destruct H as [H _].
  destruct (H eq_refl) as ((_ & Hprov) & _ & Hacc & Hreq).
  split; [exact Hprov |]. split.
  - eexists _, _. eapply Hacc.
    eexists. split; [eexists |]; reflexivity.
  - destruct Hreq as [Hreq | (w1 & e & Hrefused & _)]; [exact Hreq |].
    discriminate Hrefused.
Defined.

(** ** Runs of the scenarios of the specification *)

Example strip_trailing_slash :
  stripTrailingSlash "https://shop.example/" = "https://shop.example"
  /\ stripTrailingSlash "https://shop.example" = "https://shop.example"
  /\ stripTrailingSlash "a//" = "a/"
  /\ stripTrailingSlash "" = "".
Proof. repeat split. Qed.

(** Paid, ArrangingPayment, amount 10.00: one payment, Settled, 1000; in this
    store it covers the order, which becomes PaymentSettled. *)
Example paid_scenario :
  let run := handleMollieStatusUpdate collaborators ctx0 (notification paidOrder)
               (shop "false" paidOrder arranging) in
  run.1.1 = Ok tt
  /\ map (fun r => (md_status (pi_metadata r), md_amount (pi_metadata r)))
         (addPaymentRequests run.2) = [(Settled, 1000)]
  /\ map state (orders run.1.2) = ["PaymentSettled"].
Proof. vm_compute. repeat split. Qed.

(** Authorized, AddingItems: without auto-capture one Authorized payment and
    no settlement; with auto-capture the payment [pay_ord_1] that was just
    attached is settled. *)
Example authorized_scenarios :
  let run := fun autoCapture =>
    handleMollieStatusUpdate collaborators ctx0 (notification authorizedOrder)
      (shop autoCapture authorizedOrder addingItems) in
  (run "false").1.1 = Ok tt
  /\ map (fun r => md_status (pi_metadata r)) (addPaymentRequests (run "false").2)
     = [Authorized]
  /\ settlementCalls (run "false").2 = []
  /\ map state (orders (run "false").1.2) = ["PaymentAuthorized"]
  /\ (run "true").1.1 = Ok tt
  /\ map (fun r => md_status (pi_metadata r)) (addPaymentRequests (run "true").2)
     = [Authorized]
  /\ settlementCalls (run "true").2 = ["pay_ord_1"]
  /\ map state (orders (run "true").1.2) = ["PaymentSettled"].
Proof. vm_compute. repeat split. Qed.

(** A payment intent for an order of 10.00 without payments creates a provider
    order for 10.00 and returns its checkout URL; for an order whose payments
    cover the total it attaches a payment of 0 and returns the redirect URL. *)
Example intent_scenarios :
  let run := createPaymentIntent collaborators ctx0 (intentFor "7")
               (shop "false" paidOrder addingItems) in
  let run0 := createPaymentIntent collaborators ctx0 (intentFor "7")
                (shop "false" paidOrder coveredOrder) in
  run.1.1 = Ok (IntentUrl "https://mollie.example/checkout/CODE7")
  /\ map (fun mo => amount_value (mo_amount mo)) (providerOrders run.1.2)
     = ["10.00"; "10.00"]
  /\ run0.1.1 = Ok (IntentUrl "https://shop.example/done/CODE7")
  /\ map (fun r => md_amount (pi_metadata r)) (addPaymentRequests run0.2) = [0]
  /\ providerOrders run0.1.2 = [paidOrder].
Proof. vm_compute. repeat split. Qed.

(** ** Where the decision table is not reached, or reached again *)

(** C3.  An order of 15.00 is arranging its payment.  The notification of the
    paid provider order [ord_1] of 10.00 attaches a payment with that
    transaction id and leaves the order where it is.  On the same notification
    again, the order has a payment with the transaction id [ord_1], and a
    second payment with that transaction id is asked for and attached. *)
Lemma paid_again_attaches_again :
  let first := handleMollieStatusUpdate collaborators ctx0 (notification paidOrder)
                 (shop "false" paidOrder unpaid) in
  let w := first.1.2 in
  let second := handleMollieStatusUpdate collaborators ctx0
                  (notification paidOrder) w in
  w = shop "false" paidOrder partlyPaid
  /\ resolves collaborators w ctx0 (notification paidOrder) (methodWith "false")
       "test_key" paidOrder partlyPaid
  /\ findPaymentByTransactionId (mo_id paidOrder) (payments partlyPaid)
     = Some (payment "ord_1" 1000 "Settled")
  /\ second.1.1 = Ok tt
  /\ map (fun r => md_orderId (pi_metadata r)) (addPaymentRequests second.2)
     = [Some "ord_1"]
  /\ map (fun o => map transactionId (payments o)) (orders second.1.2)
     = [["ord_1"; "ord_1"]].
Proof. vm_compute. repeat split. Qed.

(** C4.  A placed order that was modified is arranging its additional payment;
    the customer pays it through a new provider order, which is paid.  The
    state is eligible, and the duplicate-payment gate stops the notification:
    no payment is asked for. *)
Lemma paid_additional_payment_is_dropped :
  let w := shop "false" additionalOrder modified in
  let run := handleMollieStatusUpdate collaborators ctx0
               (notification additionalOrder) w in
  resolves collaborators w ctx0 (notification additionalOrder)
    (methodWith "false") "test_key" additionalOrder modified
  /\ mo_status additionalOrder = paid
  /\ includesState vendureStatesThatRequireAction (state modified) = true
  /\ run.1 = (Ok tt, w)
  /\ addPaymentRequests run.2 = [].
Proof. vm_compute. repeat split. Qed.

(** C5.  Two orders in AddingItems on which the authorized notification
    attaches nothing.  The first carries a placement timestamp and has no
    payment of the provider order: the duplicate-payment gate logs and
    returns.  The second is a cart without a customer: the order service
    rejects the transition to ArrangingPayment that [addPayment] asks for
    first, and [addPayment] throws before it asks for the payment. *)
Lemma authorized_in_adding_items_attaches_nothing :
  let w := shop "false" authorizedOrder addingItemsPlaced in
  let run := handleMollieStatusUpdate collaborators ctx0
               (notification authorizedOrder) w in
  let w' := shop "false" authorizedOrder anonymousCart in
  let run' := handleMollieStatusUpdate collaborators ctx0
                (notification authorizedOrder) w' in
  (resolves collaborators w ctx0 (notification authorizedOrder)
     (methodWith "false") "test_key" authorizedOrder addingItemsPlaced
   /\ mo_status authorizedOrder = authorized
   /\ state addingItemsPlaced = "AddingItems"
   /\ run.1 = (Ok tt, w)
   /\ addPaymentRequests run.2 = [])
  /\ (resolves collaborators w' ctx0 (notification authorizedOrder)
        (methodWith "false") "test_key" authorizedOrder anonymousCart
      /\ state anonymousCart = "AddingItems"
      /\ run'.1
         = (Throw (StateTransitionError "CODE7"
                     {| te_fromState := "AddingItems";
                        te_toState := "ArrangingPayment";
                        te_message := "no customer" |}), w')
      /\ addPaymentRequests run'.2 = []).
Proof. vm_compute. repeat split. Qed.

(** C6.  An order in PaymentAuthorized that was authorized by another provider
    order: on the completed notification the method returns normally after
    the error log line of the duplicate-payment gate; the payments are not
    re-read, no settlement is asked for, no error is thrown. *)
Lemma completed_without_match_returns_silently :
  let w := shop "false" completedOrder authorizedByAnother in
  let run := handleMollieStatusUpdate collaborators ctx0
               (notification completedOrder) w in
  resolves collaborators w ctx0 (notification completedOrder)
    (methodWith "false") "test_key" completedOrder authorizedByAnother
  /\ mo_status completedOrder = completed
  /\ state authorizedByAnother = "PaymentAuthorized"
  /\ findPaymentByTransactionId (mo_id completedOrder)
       (payments authorizedByAnother) = None
  /\ run
     = (Ok tt, w,
        lookupTrace ctx0 (notification completedOrder) "test_key" completedOrder
          ++ [Log LError (MsgAlreadyPaid "CODE7" "ord_1")])
  /\ settlementCalls run.2 = [].
Proof. vm_compute. repeat split. Qed.

End MollieSpec.

(** * Properties of the promotion cache *)
Module PromotionSpec.
Import Promotions.

Local Open Scope list_scope.

(** The rows that [find({ where: { enabled: true } })] returns. *)
Lemma findEnabled_spec (t : Table) (q : Promotion) :
  q ∈ findEnabled t <-> exists i, rows t !! i = Some q /\ enabled q = true.
Proof.
  unfold findEnabled. rewrite list_elem_of_fmap. split.
  - intros ([i x] & -> & Hin).
    apply elem_of_map_to_list, map_lookup_filter_Some in Hin as [Hrow Hen].
    by exists i.
  - intros (i & Hrow & Hen). exists (i, q). split; [done |].
    by apply elem_of_map_to_list, map_lookup_filter_Some.
Qed.

Lemma updatePromotions_spec (s : Service) (q : Promotion) :
  q ∈ activePromotions (updatePromotions s) <-> enabledInStore (updatePromotions s) q.
Proof. apply findEnabled_spec. Qed.

Section Methods.

Context {RequestContext : Type}.
Variable assignToChannels : Promotion -> RequestContext -> Promotion.
Variable patchEntity : Promotion -> UpdatePromotionInput -> Promotion.

(** C10.  After a [createPromotion] or an [updatePromotion] that returns, the
    promotions of the cache [activePromotions] are exactly the rows of the
    table that are enabled; and an [updatePromotion] for an id that has no row
    throws and leaves the service, its cache included, as it was. *)
Theorem cache_is_enabled_rows :
  (forall (ctx : RequestContext) input s p s',
      createPromotion assignToChannels ctx input s = (Returned p, s') ->
      forall q, q ∈ activePromotions s' <-> enabledInStore s' q)
  /\ (forall (ctx : RequestContext) input s p s',
         updatePromotion patchEntity ctx input s = (Returned p, s') ->
         forall q, q ∈ activePromotions s' <-> enabledInStore s' q)
  /\ (forall (ctx : RequestContext) input s,
         rows (connection s) !! update_id input = None ->
         updatePromotion patchEntity ctx input s
         = (Thrown (EntityWithIdNotFound "AdjustmentSource" (update_id input)), s)).
Proof.
  split; [| split].
  - intros ctx input s p s'. unfold createPromotion.
    destruct (parseAll s condition _); [| discriminate].
    destruct (parseAll s action _); [| discriminate].
    destruct (save _ _) as [t e]. intros [= _ <-] q. apply updatePromotions_spec.
  - intros ctx input s p s'. unfold updatePromotion.
    destruct (findOneRow _ _) as [src |]; [| discriminate].
    destruct (match update_conditions input with Some _ => _ | None => _ end);
      [| discriminate].
    destruct (match update_actions input with Some _ => _ | None => _ end);
      [| discriminate].
    destruct (save _ _) as [t e]. intros [= _ <-] q. apply updatePromotions_spec.
  - intros ctx input s Hnone. unfold updatePromotion, findOneRow. by rewrite Hnone.
Qed.

End Methods.

Import Example.

Lemma cache_is_enabled_rows_witness :
  let created := createPromotion toDefaultChannel tt blackFriday service in
  let updated := updatePromotion patch tt (disable 1%N) service in
  (forall q, q ∈ activePromotions created.2 <-> enabledInStore created.2 q)
  /\ (forall q, q ∈ activePromotions updated.2 <-> enabledInStore updated.2 q)
  /\ updatePromotion patch tt (disable 9%N) service
     = (Thrown (EntityWithIdNotFound "AdjustmentSource" 9%N), service).
Proof.
  intros created updated.
  pose proof (cache_is_enabled_rows toDefaultChannel patch) as (Hc & Hu & Hn).
  split; [| split].
  - refine (Hc tt blackFriday service _ created.2 _). vm_compute. reflexivity.
  - refine (Hu tt (disable 1%N) service _ updated.2 _). vm_compute. reflexivity.
  - refine (Hn tt (disable 9%N) service _). vm_compute. reflexivity.
Defined.

End PromotionSpec.

(** * More on the Mollie service *)
Module MollieMore.
Import Mollie MollieSpec.

Local Open Scope list_scope.

Section Footprint.
Context {L W : Type} (C : Collaborators L W).

Lemma settlementCalls_app (t1 t2 : list (Event L)) :
  settlementCalls (t1 ++ t2) = settlementCalls t1 ++ settlementCalls t2.
Proof. unfold settlementCalls. apply flat_map_app. Qed.

Lemma bind_trace {A B} (m : M L W A) (k : A -> M L W B) w :
  (bind L W m k w).2
  = (m w).2 ++ match (m w).1.1 with
               | Ok a => (k a (m w).1.2).2
               | Throw _ => []
               end.
Proof.
  unfold bind. destruct (m w) as [[[a | e] w1] t1]; cbn.
  - by destruct (k a w1) as [[r w2] t2].
  - by rewrite app_nil_r.
Qed.

(** The three counts of a trace that the footprint theorems bound. *)
Lemma addPayment_shape ctx o amount md pmCode status w :
  let t := (addPayment C ctx o amount md pmCode status w).2 in
  (length (addPaymentRequests t) <= 1)%nat
  /\ settlementCalls t = []
  /\ List.filter callsProvider t = [].
Proof.
  unfold addPayment, bind, call, ret, throw.
  destruct (negb _ && negb _).
  - destruct (orderService_transitionToState _ _ _ _ _) as [w1 [e | o1]];
      [solve [cbn; repeat split; auto] |].
    destruct (orderService_addPaymentToOrder _ _ _ _ _) as [w2 [e | o2]];
      solve [cbn; repeat split; auto].
  - destruct (orderService_addPaymentToOrder _ _ _ _ _) as [w2 [e | o2]];
      solve [cbn; repeat split; auto].
Qed.

Lemma settle_shape ctx o id w :
  let t := (settleExistingPayment C ctx o id w).2 in
  addPaymentRequests t = []
  /\ (length (settlementCalls t) <= 1)%nat
  /\ List.filter callsProvider t = [].
Proof.
  cbv zeta.
  destruct (findPaymentByTransactionId id
              (payments (entityHydrator_hydrate C w ctx o ["payments"]))) eqn:Hf.
  - rewrite (settleExistingPayment_found _ _ _ _ _ _ Hf). cbn. solve [repeat split; auto].
  - rewrite (settleExistingPayment_missing _ _ _ _ _ Hf). cbn. solve [repeat split; auto].
Qed.

Lemma filter_callsProvider_app (t1 t2 : list (Event L)) :
  List.filter callsProvider (t1 ++ t2)
  = List.filter callsProvider t1 ++ List.filter callsProvider t2.
Proof. apply List.filter_app. Qed.

Ltac tally :=
  rewrite ?addPaymentRequests_app, ?settlementCalls_app,
    ?filter_callsProvider_app, ?app_nil_r.

Lemma reconcile_shape ctx pm auto mo o w :
  let t := (reconcileOrder C ctx pm auto mo o w).2 in
  (length (addPaymentRequests t) <= 1)%nat
  /\ (length (settlementCalls t) <= 1)%nat
  /\ List.filter callsProvider t = [].
Proof.
  cbv zeta. unfold reconcileOrder.
  destruct (negb (includesStatus _ _)); [solve [cbn; repeat split; auto] |].
  destruct (paidTwice o mo); [solve [cbn; repeat split; auto] |].
  destruct (negb (includesState _ _)); [solve [cbn; repeat split; auto] |].
  destruct (OrderStatus_eqb (mo_status mo) paid).
  { rewrite bind_trace.
    pose proof (addPayment_shape ctx o (amountToCents C (mo_amount mo))
                  (metadataOfOrder mo) (pm_code pm) Settled w) as (Ha & Hs & Hp).
    destruct (addPayment _ _ _ _ _ _ _ _) as [[[o2 | e] w2] t2];
      cbn [fst snd ret] in *; tally; rewrite Hs, Hp; auto. }
  destruct (String.eqb (state o) "AddingItems" && _).
  { rewrite bind_trace.
    pose proof (addPayment_shape ctx o (amountToCents C (mo_amount mo))
                  (metadataOfOrder mo) (pm_code pm) Authorized w) as (Ha & Hs & Hp).
    destruct (addPayment _ _ _ _ _ _ _ _) as [[[o2 | e] w2] t2];
      cbn [fst snd] in *; [| tally; rewrite Hs, Hp; auto].
    destruct (auto && _).
    - rewrite log_then, after_trace.
      pose proof (settle_shape ctx o2 (mo_id mo) w2) as (Ha' & Hs' & Hp').
      tally. rewrite Hs, Hp, Ha', Hp'. cbn [addPaymentRequests settlementCalls
        flat_map List.filter callsProvider app]. tally. auto.
    - cbn [ret snd]. tally. rewrite Hs, Hp. auto. }
  destruct (String.eqb (state o) "PaymentAuthorized" && _).
  { pose proof (settle_shape ctx o (mo_id mo) w) as (Ha' & Hs' & Hp').
    rewrite Ha', Hp'. cbn [length]. auto. }
  destruct (auto && _); solve [cbn; repeat split; auto].
Qed.

(** X1.  Whatever the collaborators answer, one run of
    [handleMollieStatusUpdate] asks for at most one payment and for at most
    one settlement, and it calls the provider at most once: to fetch the
    order of the notification.  It never creates a provider order. *)
Theorem one_notification_one_payment_one_settlement ctx input w :
  let t := (handleMollieStatusUpdate C ctx input w).2 in
  (length (addPaymentRequests t) <= 1)%nat
  /\ (length (settlementCalls t) <= 1)%nat
  /\ (List.filter callsProvider t = []
      \/ exists key, List.filter callsProvider t = [MollieOrdersGet key (orderId input)]).
Proof.
  cbv zeta. unfold handleMollieStatusUpdate, log, emit, read.
  rewrite bind_trace. cbn [fst snd]. rewrite bind_trace. cbn [fst snd].
  destruct (paymentMethodService_findOne C w ctx (paymentMethodId input)) as [pm |];
    [| solve [cbn; repeat split; eauto] ].
  destruct (findArg "apiKey" (pm_handler_args pm)) as [key |];
    [| solve [cbn; repeat split; eauto] ].
  destruct (negb (truthy (Some key))); [solve [cbn; repeat split; eauto] |].
  rewrite bind_trace. cbn [fst snd].
  destruct (mollie_orders_get C w key (orderId input)) as [msg | mo];
    [solve [cbn; repeat split; eauto] |].
  cbv beta iota zeta.
  rewrite bind_trace. cbn [fst snd]. rewrite bind_trace. cbn [fst snd].
  destruct (orderService_findOneByCode _ _ _ _) as [o |];
    [| solve [cbn; repeat split; eauto] ].
  pose proof (reconcile_shape (contextFor ctx mo) pm (autoCaptureOf pm) mo o w)
    as (Ha & Hs & Hp).
  tally. rewrite Hp. cbn. eauto.
Qed.


(** X2.  For a payment method id that the payment-method service does not
    know, [handleMollieStatusUpdate] logs a warning and returns normally: the
    provider is not called and no order is looked up. *)
Theorem unknown_payment_method_returns_silently ctx input w :
  paymentMethodService_findOne C w ctx (paymentMethodId input) = None ->
  handleMollieStatusUpdate C ctx input w
  = (Ok tt, w,
     [ Log LInfo (MsgReceivedStatusUpdate (channelToken ctx) (orderId input));
       PaymentMethodFindOne ctx (paymentMethodId input);
       Log LWarn (MsgNoPaymentMethodFound (paymentMethodId input)) ]).
Proof.
  intros Hpm. unfold handleMollieStatusUpdate, bind, log, emit, read.
  by rewrite Hpm.
Qed.

(** X3.  When the order store has no order with the order number of the
    fetched provider order, [handleMollieStatusUpdate] throws the
    order-not-found error after the lookups; nothing has been changed. *)
Theorem unknown_order_throws ctx input w pm key mo :
  paymentMethodService_findOne C w ctx (paymentMethodId input) = Some pm ->
  findArg "apiKey" (pm_handler_args pm) = Some key ->
  truthy (Some key) = true ->
  mollie_orders_get C w key (orderId input) = inr mo ->
  orderService_findOneByCode C w (contextFor ctx mo) (mo_orderNumber mo) = None ->
  handleMollieStatusUpdate C ctx input w
  = (Throw (OrderNotFoundError (mo_orderNumber mo) (mo_id mo)), w,
     lookupTrace ctx input key mo).
Proof.
  intros Hpm Hkey Htruthy Hmo Ho.
  unfold handleMollieStatusUpdate, bind, log, emit, read, throw, lookupTrace.
  rewrite Hpm, Hkey, Htruthy. cbn [negb]. cbv beta iota zeta.
  by rewrite Hmo, Ho.
Qed.

(** X4.  A settlement that [settleExistingPayment] asks for is the only one
    of its run, and it is for a payment of the re-read order whose
    transaction id is the given provider order id. *)
Theorem settlement_is_for_the_matching_payment ctx o id w pid :
  In pid (settlementCalls (settleExistingPayment C ctx o id w).2) ->
  exists p,
    In p (payments (entityHydrator_hydrate C w ctx o ["payments"]))
    /\ transactionId p = id
    /\ payment_id p = pid
    /\ settlementCalls (settleExistingPayment C ctx o id w).2 = [pid].
Proof.
  destruct (findPaymentByTransactionId id
              (payments (entityHydrator_hydrate C w ctx o ["payments"]))) eqn:Hf.
  - rewrite (settleExistingPayment_found _ _ _ _ _ _ Hf). cbn.
    intros [<- | []]. exists p. split; [| split; [| done]].
    + by apply find_some in Hf as [Hin _].
    + exact (found_payment_matches _ _ _ Hf).
  - rewrite (settleExistingPayment_missing _ _ _ _ _ Hf). intros [].
Qed.

(** X5.  [addPayment] returns an order exactly when the order service grants
    the transition to ArrangingPayment, if the order needs one, and then
    accepts the payment; the order and the state it returns are the ones the
    order service answered with. *)
Theorem addPayment_returns_iff_accepted ctx o amount md pmCode status w w2 o2 :
  (exists t, addPayment C ctx o amount md pmCode status w = (Ok o2, w2, t))
  <-> storeAccepts C w ctx o (paymentInput amount md pmCode status) w2 o2.
Proof.
  split.
  - intros [t Hrun]. revert Hrun. unfold addPayment, storeAccepts, bind, call, ret, throw.
    destruct (negb (String.eqb (state o) "ArrangingPayment")
              && negb (String.eqb (state o) "ArrangingAdditionalPayment")).
    + destruct (orderService_transitionToState _ _ _ _ _) as [w1 [e | o1]];
        [discriminate |].
      destruct (orderService_addPaymentToOrder _ _ _ _ _) as [w2' [e | o2']] eqn:Ha;
        [discriminate |].
      intros [= <- <- _]. exists w1. split; [by exists o1 | done].
    + destruct (orderService_addPaymentToOrder _ _ _ _ _) as [w2' [e | o2']] eqn:Ha;
        [discriminate |].
      intros [= <- <- _]. by exists w.
  - intros Hacc. eexists. exact (addPayment_accepted _ _ _ _ _ _ _ _ _ _ Hacc).
Qed.

(** X6.  When the order is not arranging a payment and the order service
    rejects the transition to ArrangingPayment, [addPayment] throws the
    transition error and has asked for no payment. *)
Theorem rejected_transition_attaches_nothing
    ctx o amount md pmCode status w w1 e :
  String.eqb (state o) "ArrangingPayment" = false ->
  String.eqb (state o) "ArrangingAdditionalPayment" = false ->
  orderService_transitionToState C w ctx (order_id o) "ArrangingPayment"
  = (w1, inl e) ->
  addPayment C ctx o amount md pmCode status w
  = (Throw (StateTransitionError (code o) e), w1,
     [TransitionToState ctx (order_id o) "ArrangingPayment"]).
Proof.
  intros H1 H2 Htr.
  unfold addPayment, bind, call, throw. rewrite H1, H2.
  cbn [negb andb]. by rewrite Htr.
Qed.

(** X7.  For an order in ArrangingPayment or ArrangingAdditionalPayment,
    [addPayment] asks for no transition: its only call attaches the payment,
    and a rejection by the order service is thrown with its message. *)
Theorem arranging_order_needs_no_transition ctx o amount md pmCode status w :
  state o = "ArrangingPayment" \/ state o = "ArrangingAdditionalPayment" ->
  let request := paymentInput amount md pmCode status in
  let answer := orderService_addPaymentToOrder C w ctx (order_id o) request in
  addPayment C ctx o amount md pmCode status w
  = (match answer.2 with
     | inr o2 => Ok o2
     | inl e => Throw (PaymentAttachError (code o) (message e))
     end, answer.1, [AddPaymentToOrder ctx (order_id o) request]).
Proof.
  intros Hst request answer. subst request answer.
  unfold addPayment, bind, call, ret, throw.
  assert (negb (String.eqb (state o) "ArrangingPayment")
          && negb (String.eqb (state o) "ArrangingAdditionalPayment") = false) as ->.
  { destruct Hst as [-> | ->]; reflexivity. }
  cbn. by destruct (orderService_addPaymentToOrder _ _ _ _ _) as [w2 [e | o2]].
Qed.

(** X8.  When the order service answers the settlement with an error result,
    [settleExistingPayment] throws only if the message of the error is not
    empty; an error result with an empty message passes as a success. *)
Theorem settlement_error_needs_a_message ctx o id w p w' e :
  findPaymentByTransactionId id
    (payments (entityHydrator_hydrate C w ctx o ["payments"])) = Some p ->
  orderService_settlePayment C w ctx (payment_id p) = (w', inl e) ->
  settleExistingPayment C ctx o id w
  = (if String.eqb (message e) ""
     then Ok tt
     else Throw (SettlementError (payment_id p)
                   (code (entityHydrator_hydrate C w ctx o ["payments"])) e),
     w',
     [ Hydrate ctx (order_id o) ["payments"]; SettlePayment ctx (payment_id p) ]).
Proof.
  intros Hf Hs. rewrite (settleExistingPayment_found _ _ _ _ _ _ Hf), Hs. cbn.
  by destruct (String.eqb (message e) "").
Qed.


(** ** Payment intents *)

Lemma existsb_false_filter {A} (f : A -> bool) (l : list A) :
  existsb f l = false -> List.filter f l = [].
Proof.
  induction l as [| x l IH]; [done |]. cbn.
  destruct (f x); [discriminate |]. exact IH.
Qed.

Lemma unchanged_store_counts (t : list (Event L)) :
  existsb changesOrderStore t = false ->
  addPaymentRequests t = [] /\ settlementCalls t = [].
Proof.
  induction t as [| e t IH]; [done |]. cbn.
  destruct e; cbn; try discriminate; exact IH.
Qed.

Lemma payOutstanding_shape ctx o pm redirectUrl apiKey host address methodCode w :
  let run := payOutstanding C ctx o pm redirectUrl apiKey host address methodCode w in
  (forall x, run.1.1 = Ok x -> exists url, x = IntentUrl url)
  /\ settlementCalls run.2 = []
  /\ ((List.filter callsProvider run.2 = []
       /\ (length (addPaymentRequests run.2) <= 1)%nat)
      \/ (exists params,
           List.filter callsProvider run.2 = [MollieOrdersCreate apiKey params]
           /\ addPaymentRequests run.2 = [])).
Proof.
  cbv zeta. unfold payOutstanding.
  destruct (Z.eqb _ 0).
  - pose proof (addPayment_shape (adminContext ctx (languageCode ctx)) o
                  (totalWithTax o - totalCoveredByPayments C o)
                  settledWithoutMollie (pm_code pm) Settled w) as (Ha & Hs & Hp).
    cbv zeta in Ha, Hs, Hp. unfold bind.
    destruct (addPayment _ _ _ _ _ _ _ _) as [[[o2 | e] w2] t2];
      cbn [fst snd ret] in *; tally.
    + split; [intros x [= <-]; by eexists |]. split; [exact Hs |]. left. by split.
    + split; [intros x [=] |]. split; [exact Hs |]. left. by split.
  - unfold bind, call, log, emit, ret, throw.
    destruct (mollie_orders_create _ _ _ _) as [w1 [msg | mo]].
    + cbn. split; [intros x [=] |]. split; [done |]. right. by eexists.
    + destruct (orderService_updateCustomFields _ _ _ _ _) as [w3 [msg |]];
        destruct (mo_checkoutUrl mo) as [url |];
        try destruct (truthy (Some url)); cbn;
        (split; [intros x [=]; subst; by eexists |]);
        (split; [done |]); right; by eexists.
Qed.

(** X9.  A [molliePaymentMethodCode] that is not one of the methods of the
    provider client is refused with an error result before anything else is
    done: no collaborator is called. *)
Theorem disallowed_method_code_is_refused_first ctx input w c :
  in_molliePaymentMethodCode input = Some c ->
  truthy (Some c) = true ->
  existsb (String.eqb c) (allowedMethods C) = false ->
  createPaymentIntent C ctx input w
  = (Ok (InvalidInputError (MsgMethodCodeNotAllowed (allowedMethods C))), w, []).
Proof.
  intros Hc Hne Hnot. unfold createPaymentIntent, validateIntent.
  by rewrite Hc, Hne, Hnot.
Qed.

(** X10.  When [createPaymentIntent] returns an error result, it has changed
    nothing: the state of the collaborators is the one it started from, and
    its trace holds no call to the provider and no call that changes the
    order store. *)
Theorem intent_error_changes_nothing ctx input w errorCode msg w' t :
  createPaymentIntent C ctx input w = (Ok (IntentError errorCode msg), w', t) ->
  w' = w
  /\ existsb callsProvider t = false
  /\ existsb changesOrderStore t = false.
Proof.
  unfold createPaymentIntent.
  destruct (validateIntent_quiet C ctx input w) as (r0 & t0 & Hv & Hp & Hc).
  unfold bind. rewrite Hv. destruct r0 as [[err | p] | e]; [| | discriminate].
  - cbn. intros [= _ <- <-]. by rewrite app_nil_r.
  - pose proof (payOutstanding_shape ctx (p_order p) (p_paymentMethod p)
                  (p_redirectUrl p) (p_apiKey p) (p_vendureHost p)
                  (p_billingAddress p) (in_molliePaymentMethodCode input) w)
      as (Hurl & _).
    destruct (payOutstanding _ _ _ _ _ _ _ _ _ _) as [[r w2] t2].
    intros [= -> _ _]. by destruct (Hurl _ eq_refl).
Qed.

(** X11.  One run of [createPaymentIntent] never asks for a settlement and
    never fetches a provider order.  It either creates at most one provider
    order and attaches no payment, or attaches at most one payment and does
    not call the provider. *)
Theorem intent_creates_or_attaches ctx input w :
  let t := (createPaymentIntent C ctx input w).2 in
  settlementCalls t = []
  /\ ((List.filter callsProvider t = []
       /\ (length (addPaymentRequests t) <= 1)%nat)
      \/ (exists key params,
           List.filter callsProvider t = [MollieOrdersCreate key params]
           /\ addPaymentRequests t = [])).
Proof.
  cbv zeta. unfold createPaymentIntent. rewrite bind_trace.
  destruct (validateIntent_quiet C ctx input w) as (r0 & t0 & Hv & Hp & Hc).
  rewrite Hv. cbn [fst snd].
  apply existsb_false_filter in Hp. apply unchanged_store_counts in Hc as [Ha Hs].
  tally. rewrite Hp, Ha, Hs. cbn [app].
  destruct r0 as [[err | p] | e];
    [cbn; split; [done |]; left; split; [done | lia] |
    | cbn; split; [done |]; left; split; [done | lia] ].
  pose proof (payOutstanding_shape ctx (p_order p) (p_paymentMethod p)
                (p_redirectUrl p) (p_apiKey p) (p_vendureHost p)
                (p_billingAddress p) (in_molliePaymentMethodCode input) w)
    as (_ & Hs' & [H | (params & H)]).
  - split; [exact Hs' |]. left. exact H.
  - split; [exact Hs' |]. right. exists (p_apiKey p), params. exact H.
Qed.

(** ** What a validated intent has *)

Lemma ensures_ret {A} (a : A) (Q : A -> Prop) : Q a -> ensures (ret L W a) Q.
Proof. intros H w a' w' t [= <- _ _]. exact H. Qed.

Lemma ensures_throw {A} e (Q : A -> Prop) : ensures (throw (A:=A) L W e) Q.
Proof. intros w a' w' t [=]. Qed.

Lemma ensures_bind {A B} (m : M L W A) (k : A -> M L W B) (Q : B -> Prop) :
  (forall a, ensures (k a) Q) -> ensures (bind L W m k) Q.
Proof.
  intros Hk w b w' t. unfold bind.
  destruct (m w) as [[[a | e] w1] t1]; [| discriminate].
  destruct (k a w1) as [[r w2] t2] eqn:Hrun. intros [= -> _ _].
  exact (Hk a w1 b w2 t2 Hrun).
Qed.

Ltac ensures_step :=
  first
    [ apply ensures_throw
    | apply ensures_ret
    | apply ensures_bind; intros ?
    | match goal with
      | |- ensures (match ?x with _ => _ end) _ => destruct x eqn:?
      end ].

Lemma lacksName_false field c :
  lacksName field c = false -> exists x, c = Some x /\ field x <> "".
Proof.
  destruct c as [x |]; [| discriminate]. cbn. intros H. exists x. split; [done |].
  intros Heq. by rewrite Heq in H.
Qed.

(** X12.  When the validation of [createPaymentIntent] lets an order through,
    the order has a customer with a first and a last name, the payment method
    has a non-empty [apiKey] argument, which is the key used, the redirect URL
    is the one of the input or of the fallback, the billing address is the
    provider address of the billing address of the order, or of its shipping
    address when the billing address gives none, and the host is the
    configured host without its trailing slash. *)
Theorem validated_intent_is_complete ctx input w p w' t :
  validateIntent C ctx input w = (Ok (inr p), w', t) ->
  let o := p_order p in
  let pm := p_paymentMethod p in
  (exists c, customer o = Some c /\ firstName c <> "" /\ lastName c <> "")
  /\ findArg "apiKey" (pm_handler_args pm) = Some (p_apiKey p)
  /\ p_apiKey p <> ""
  /\ resolveRedirectUrl input pm o = Some (p_redirectUrl p)
  /\ (toMollieAddress C (billingAddress o) (customer o) = Some (p_billingAddress p)
      \/ (toMollieAddress C (billingAddress o) (customer o) = None
          /\ toMollieAddress C (shippingAddress o) (customer o)
             = Some (p_billingAddress p)))
  /\ p_vendureHost p = stripTrailingSlash (options_vendureHost C).
Proof.
  intros Hrun.
  enough (Hens : ensures (validateIntent C ctx input)
            (fun v => match v with
                      | inl _ => True
                      | inr p =>
                          (exists c, customer (p_order p) = Some c
                                     /\ firstName c <> "" /\ lastName c <> "")
                          /\ findArg "apiKey" (pm_handler_args (p_paymentMethod p))
                             = Some (p_apiKey p)
                          /\ p_apiKey p <> ""
                          /\ resolveRedirectUrl input (p_paymentMethod p) (p_order p)
                             = Some (p_redirectUrl p)
                          /\ (toMollieAddress C (billingAddress (p_order p))
                                (customer (p_order p)) = Some (p_billingAddress p)
                              \/ (toMollieAddress C (billingAddress (p_order p))
                                    (customer (p_order p)) = None
                                  /\ toMollieAddress C (shippingAddress (p_order p))
                                       (customer (p_order p))
                                     = Some (p_billingAddress p)))
                          /\ p_vendureHost p = stripTrailingSlash (options_vendureHost C)
                      end)).
  { exact (Hens w (inr p) w' t Hrun). }
  unfold validateIntent, refuseWithoutApiKey.
  repeat ensures_step; try exact I.
  cbn [p_order p_paymentMethod p_apiKey p_redirectUrl p_billingAddress p_vendureHost].
  repeat match goal with
         | H : lacksName _ _ = false |- _ => apply lacksName_false in H as (? & ? & ?)
         end.
  split.
  { match goal with
    | H1 : customer ?o = Some ?x, H2 : customer ?o = Some ?y |- _ =>
        assert (x = y) by congruence; subst; exists y
    end.
    by repeat split. }
  split; [done |].
  split.
  { match goal with H : truthy (Some _) = true |- _ => revert H end.
    cbn. intros Ht Heq. by rewrite Heq in Ht. }
  split; [done |].
  split; [| done].
  match goal with
  | H : match toMollieAddress C ?a ?c with _ => _ end = Some _ |- _ =>
      destruct (toMollieAddress C a c); [left; congruence | right; by split]
  end.
Qed.


End Footprint.

(** ** Trailing slashes *)

Lemma append_slash_nonempty s : String.append s "/" <> "".
Proof. by destruct s. Qed.

Lemma stripTrailingSlash_append s : stripTrailingSlash (String.append s "/") = s.
Proof.
  induction s as [| c s IH]; [done |].
  change (stripTrailingSlash (String c (String.append s "/")) = String c s).
  destruct (String.append s "/") as [| c' rest] eqn:Heq; [by destruct s |].
  change (String c (stripTrailingSlash (String c' rest)) = String c s).
  by rewrite IH.
Qed.

Lemma stripTrailingSlash_plain s : endsWithSlash s = false -> stripTrailingSlash s = s.
Proof.
  induction s as [| c s IH]; [done |].
  destruct s as [| c' s'].
  - cbn. by intros ->.
  - intros H. change (String c (stripTrailingSlash (String c' s')) = String c (String c' s')).
    f_equal. by apply IH.
Qed.

(** X13.  The removal of the trailing slash takes exactly one slash off the
    end: a slash that was appended is removed again, a string that does not
    end with a slash is left as it is, and putting the slash back on a string
    that ended with one gives the string again. *)
Theorem stripTrailingSlash_removes_one_slash s :
  stripTrailingSlash (String.append s "/") = s
  /\ (endsWithSlash s = false -> stripTrailingSlash s = s)
  /\ (endsWithSlash s = true -> String.append (stripTrailingSlash s) "/" = s).
Proof.
  split; [apply stripTrailingSlash_append |]. split; [apply stripTrailingSlash_plain |].
  induction s as [| c s IH]; [discriminate |].
  destruct s as [| c' s'].
  - cbn. destruct (Ascii.eqb_spec c "/"%char) as [-> | _]; [done | discriminate].
  - intros H.
    change (String c (String.append (stripTrailingSlash (String c' s')) "/")
            = String c (String c' s')).
    f_equal. by apply IH.
Qed.

(** X14.  Without a redirect URL in the input, the fallback of the payment
    method gives the same redirect URL whether it is configured with or
    without a trailing slash: the fallback, a slash, the order code. *)
Theorem fallback_redirect_ignores_trailing_slash input pm o base :
  truthy (in_redirectUrl input) = false ->
  truthy (Some base) = true ->
  endsWithSlash base = false ->
  findArg "redirectUrl" (pm_handler_args pm) = Some base
  \/ findArg "redirectUrl" (pm_handler_args pm) = Some (String.append base "/") ->
  resolveRedirectUrl input pm o
  = Some (String.append base (String.append "/" (code o))).
Proof.
  intros Hin Hne Hno Harg. unfold resolveRedirectUrl. rewrite Hin.
  destruct Harg as [-> | ->].
  - by rewrite Hne, (stripTrailingSlash_plain base Hno).
  - assert (truthy (Some (String.append base "/")) = true) as ->.
    { cbn. apply negb_true_iff, String.eqb_neq, append_slash_nonempty. }
    by rewrite stripTrailingSlash_append.
Qed.

(** ** Enabled payment methods *)
Section EnabledMethods.
Context {L W : Type} (C : Collaborators L W).
Context {Method : Type} (method_id : Method -> string).
Variable hook : option (W -> RequestContext -> option Order -> gmap string string).
Variable list_methods : W -> string -> gmap string string -> string + list Method.

Lemma getPaymentMethod_run ctx code w :
  getPaymentMethod L W C ctx (Some code) w
  = if truthy (Some code)
    then (Ok (List.find (fun pm => String.eqb (pm_code pm) code)
                (paymentMethodService_findAll C w ctx (Some code))),
          w, [PaymentMethodFindAll ctx (Some code)])
    else (Ok (List.find (fun pm => String.eqb (pm_handler_code pm)
                                     (molliePaymentHandler_code C))
                (paymentMethodService_findAll C w ctx None)),
          w, [PaymentMethodFindAll ctx None]).
Proof. unfold getPaymentMethod. by destruct (truthy (Some code)). Qed.

(** X15.  When no payment method has the given code, or the one that has it
    has no [apiKey] value, [getEnabledPaymentMethods] throws after the lookup
    of the payment method: the active order is not read and the provider is
    not called. *)
Theorem enabled_methods_need_an_api_key ctx code w :
  truthy (Some code) = true ->
  truthy match List.find (fun pm => String.eqb (pm_code pm) code)
                 (paymentMethodService_findAll C w ctx (Some code)) with
         | Some pm => findArg "apiKey" (pm_handler_args pm)
         | None => None
         end = false ->
  getEnabledPaymentMethods C method_id hook list_methods ctx code w
  = (inl (NoApiKeyConfiguredError code), w,
     [Core (PaymentMethodFindAll ctx (Some code))]).
Proof.
  intros Hne Hkey. unfold getEnabledPaymentMethods.
  rewrite getPaymentMethod_run, Hne.
  destruct (List.find _ _) as [pm |]; [| done].
  destruct (findArg "apiKey" (pm_handler_args pm)) as [key |]; [| done].
  by rewrite Hkey.
Qed.

(** X16.  When [getEnabledPaymentMethods] returns, its last call listed the
    methods of the provider with the parameter [resource] set to [orders],
    also when the hook of the plugin sets it otherwise; the other parameters
    are those of the hook.  The methods returned are the listed ones, in
    order, each with its [id] as its [code]. *)
Theorem enabled_methods_are_those_of_orders ctx code w methods t :
  getEnabledPaymentMethods C method_id hook list_methods ctx code w
  = (inr methods, w, t) ->
  exists key params listed,
    last t = Some (MollieMethodsList key params)
    /\ params !! "resource" = Some "orders"
    /\ (forall name, name <> "resource" ->
          params !! name
          = match hook with
            | Some f => f w ctx (activeOrderService_getActiveOrder C w ctx) !! name
            | None => None
            end)
    /\ list_methods w key params = inr listed
    /\ map mpm_method methods = listed
    /\ map mpm_code methods = map method_id listed.
Proof.
  unfold getEnabledPaymentMethods. rewrite getPaymentMethod_run.
  destruct (if truthy (Some code) then _ else _) as [[r w1] t1] eqn:Hpm.
  assert (w1 = w) as -> by (destruct (truthy (Some code)); congruence).
  destruct r as [pm | e]; [| discriminate].
  destruct (match pm with Some _ => _ | None => _ end) as [key |]; [| discriminate].
  destruct (negb (truthy (Some key))); [discriminate |].
  destruct (list_methods w key _) as [msg | listed] eqn:Hlist; [discriminate |].
  intros [= <- <-].
  exists key,
    (listParams match hook with
                | Some f => Some (f w ctx (activeOrderService_getActiveOrder C w ctx))
                | None => None
                end), listed.
  repeat split.
  - rewrite !last_app. by destruct hook.
  - unfold listParams. apply lookup_insert_eq.
  - intros name Hname. unfold listParams. rewrite lookup_insert_ne; [| done].
    by destruct hook.
  - exact Hlist.
  - rewrite map_map. apply map_id.
  - by rewrite map_map.
Qed.

End EnabledMethods.

(** ** The theorems on the in-memory store *)

Import InMemory.

Lemma unknown_payment_method_returns_silently_witness :
  let input := {| paymentMethodId := "9"; orderId := "ord_1" |} in
  let w := shop "false" paidOrder arranging in
  handleMollieStatusUpdate collaborators ctx0 input w
  = (Ok tt, w,
     [ Log LInfo (MsgReceivedStatusUpdate "default-channel" "ord_1");
       PaymentMethodFindOne ctx0 "9";
       Log LWarn (MsgNoPaymentMethodFound "9") ]).
Proof.
  intros input w.
  refine (unknown_payment_method_returns_silently collaborators ctx0 input w _).
  reflexivity.
Defined.

Lemma unknown_order_throws_witness :
  let mo := providerOrder "ord_1" paid "CODE9" "10.00" in
  let w := shop "false" mo arranging in
  handleMollieStatusUpdate collaborators ctx0 (notification mo) w
  = (Throw (OrderNotFoundError "CODE9" "ord_1"), w,
     lookupTrace ctx0 (notification mo) "test_key" mo).
Proof.
  intros mo w.
  refine (unknown_order_throws collaborators ctx0 (notification mo) w
            (methodWith "false") "test_key" mo _ _ _ _ _); reflexivity.
Defined.

Lemma settlement_is_for_the_matching_payment_witness :
  let w := shop "false" completedOrder authorizedLocally in
  exists p,
    In p (payments authorizedLocally)
    /\ transactionId p = "ord_1"
    /\ payment_id p = "pay_ord_1"
    /\ settlementCalls
         (settleExistingPayment collaborators ctx0 authorizedLocally "ord_1" w).2
       = ["pay_ord_1"].
Proof.
  intros w.
  refine (settlement_is_for_the_matching_payment collaborators ctx0
            authorizedLocally "ord_1" w "pay_ord_1" _).
  left. reflexivity.
Defined.

Lemma addPayment_returns_iff_accepted_witness :
  let w := shop "false" paidOrder arranging in
  let request := paymentInput 1000 (metadataOfOrder paidOrder) "mollie" Settled in
  exists t,
    addPayment collaborators ctx0 arranging 1000 (metadataOfOrder paidOrder)
      "mollie" Settled w
    = (Ok (answered arranging (attach w "7" request).2),
       (attach w "7" request).1, t).
Proof.
  intros w request.
  refine (proj2 (addPayment_returns_iff_accepted collaborators ctx0 arranging 1000
                   (metadataOfOrder paidOrder) "mollie" Settled w
                   (attach w "7" request).1
                   (answered arranging (attach w "7" request).2)) _).
  exists w. split; reflexivity.
Defined.

Lemma rejected_transition_attaches_nothing_witness :
  let w := shop "false" authorizedOrder anonymousCart in
  addPayment collaborators ctx0 anonymousCart 1000 (metadataOfOrder authorizedOrder)
    "mollie" Authorized w
  = (Throw (StateTransitionError "CODE7"
              {| te_fromState := "AddingItems"; te_toState := "ArrangingPayment";
                 te_message := "no customer" |}), w,
     [TransitionToState ctx0 "7" "ArrangingPayment"]).
Proof.
  intros w.
  refine (rejected_transition_attaches_nothing collaborators ctx0 anonymousCart
            1000 (metadataOfOrder authorizedOrder) "mollie" Authorized w w _ _ _ _);
    reflexivity.
Defined.

Lemma arranging_order_needs_no_transition_witness :
  let w := shop "false" paidOrder arranging in
  let request := paymentInput 1000 (metadataOfOrder paidOrder) "mollie" Settled in
  (addPayment collaborators ctx0 arranging 1000 (metadataOfOrder paidOrder)
     "mollie" Settled w).2
  = [AddPaymentToOrder ctx0 "7" request].
Proof.
  intros w request.
  refine (f_equal snd
            (arranging_order_needs_no_transition collaborators ctx0 arranging 1000
               (metadataOfOrder paidOrder) "mollie" Settled w _)).
  left. reflexivity.
Defined.

Lemma settlement_error_needs_a_message_witness :
  let w := shop "false" completedOrder arranging in
  let stray :=
    order "8" "PaymentAuthorized" (Some 5) [payment "ord_1" 1000 "Authorized"]
          1000 in
  settleExistingPayment collaborators ctx0 stray "ord_1" w
  = (Throw (SettlementError "pay_ord_1" "CODE8"
              {| errorCode := "SETTLE_PAYMENT_ERROR";
                 message := "payment not found" |}), w,
     [ Hydrate ctx0 "8" ["payments"]; SettlePayment ctx0 "pay_ord_1" ]).
Proof.
  intros w stray.
  refine (settlement_error_needs_a_message collaborators ctx0 stray "ord_1" w
            (payment "ord_1" 1000 "Authorized") w
            {| errorCode := "SETTLE_PAYMENT_ERROR";
               message := "payment not found" |} _ _); reflexivity.
Defined.

Lemma disallowed_method_code_is_refused_first_witness :
  let input := {| in_paymentMethodCode := Some "mollie";
                  in_molliePaymentMethodCode := Some "bitcoin";
                  in_redirectUrl := None; in_orderId := Some "7" |} in
  let w := shop "false" paidOrder addingItems in
  createPaymentIntent collaborators ctx0 input w
  = (Ok (InvalidInputError
           (MsgMethodCodeNotAllowed ["ideal"; "creditcard"; "paypal"])), w, []).
Proof.
  intros input w.
  refine (disallowed_method_code_is_refused_first collaborators ctx0 input w
            "bitcoin" _ _ _); reflexivity.
Defined.

Lemma intent_error_changes_nothing_witness :
  let input := {| in_paymentMethodCode := Some "stripe";
                  in_molliePaymentMethodCode := None;
                  in_redirectUrl := None; in_orderId := Some "99" |} in
  let w := shop "false" paidOrder addingItems in
  let run := createPaymentIntent collaborators ctx0 input w in
  orderService_findOne collaborators w ctx0 "99" = None
  /\ run.1.1 = Ok (PaymentIntentError (MsgNoPaymentMethodWithCode (Some "stripe")))
  /\ run.1.2 = w
  /\ existsb callsProvider run.2 = false
  /\ existsb changesOrderStore run.2 = false.
Proof.
  intros input w run. split; [reflexivity |]. split; [reflexivity |].
  refine (intent_error_changes_nothing collaborators ctx0 input w
            ORDER_PAYMENT_STATE_ERROR (MsgNoPaymentMethodWithCode (Some "stripe"))
            run.1.2 run.2 _).
  reflexivity.
Defined.

(** The order id of an intent that the order store does not know: without a
    payment method of the code of the input the result is the error of the
    payment method; with one, the read of the id of the order throws, before
    the eligible payment methods are asked for.  An order without a customer
    is refused by the dry run of the transition. *)
Example intents_for_unknown_orders :
  let input := {| in_paymentMethodCode := Some "stripe";
                  in_molliePaymentMethodCode := None;
                  in_redirectUrl := None; in_orderId := Some "99" |} in
  let w := shop "false" paidOrder addingItems in
  let run := createPaymentIntent collaborators ctx0 input w in
  let run' := createPaymentIntent collaborators ctx0 (intentFor "99") w in
  let run0 := createPaymentIntent collaborators ctx0 (intentFor "7")
                (shop "false" paidOrder anonymousCart) in
  run = (Ok (PaymentIntentError (MsgNoPaymentMethodWithCode (Some "stripe"))), w,
         [OrderFindOne ctx0 "99"; PaymentMethodFindAll ctx0 (Some "stripe")])
  /\ run' = (Throw (TypeError "id"), w,
            [OrderFindOne ctx0 "99"; PaymentMethodFindAll ctx0 (Some "mollie")])
  /\ run0.1.1 = Ok (PaymentIntentError (MsgTransition "no customer")).
Proof. vm_compute. repeat split. Qed.

Lemma validated_intent_is_complete_witness :
  let w := shop "false" paidOrder addingItems in
  let run := validateIntent collaborators ctx0 (intentFor "7") w in
  exists p,
    run.1.1 = Ok (inr p)
    /\ customer (p_order p) = Some alice
    /\ p_apiKey p = "test_key"
    /\ p_redirectUrl p = "https://shop.example/done/CODE7"
    /\ p_vendureHost p = "https://shop.example"
    /\ resolveRedirectUrl (intentFor "7") (p_paymentMethod p) (p_order p)
       = Some (p_redirectUrl p).
Proof.
  intros w run. eexists. split; [reflexivity |].
  split; [reflexivity |]. split; [reflexivity |]. split; [reflexivity |].
  split; [reflexivity |].
  refine (proj1 (proj2 (proj2 (proj2
            (validated_intent_is_complete collaborators ctx0 (intentFor "7") w _
               run.1.2 run.2 _))))).
  reflexivity.
Defined.

Lemma stripTrailingSlash_removes_one_slash_witness :
  stripTrailingSlash "https://shop.example" = "https://shop.example"
  /\ String.append (stripTrailingSlash "https://shop.example/") "/"
     = "https://shop.example/".
Proof.
  split.
  - refine (proj1 (proj2 (stripTrailingSlash_removes_one_slash _)) _). reflexivity.
  - refine (proj2 (proj2 (stripTrailingSlash_removes_one_slash _)) _). reflexivity.
Defined.

Lemma fallback_redirect_ignores_trailing_slash_witness :
  resolveRedirectUrl (intentFor "7") (methodWith "false") arranging
  = Some "https://shop.example/done/CODE7".
Proof.
  refine (fallback_redirect_ignores_trailing_slash (intentFor "7")
            (methodWith "false") arranging "https://shop.example/done" _ _ _ _).
  - reflexivity.
  - reflexivity.
  - reflexivity.
  - right. reflexivity.
Defined.

Lemma enabled_methods_need_an_api_key_witness :
  let w := shop "false" paidOrder arranging in
  getEnabledPaymentMethods collaborators methodId (Some localeHook) listedMethods
    ctx0 "mollie-unconfigured" w
  = (inl (NoApiKeyConfiguredError "mollie-unconfigured"), w,
     [Core (PaymentMethodFindAll ctx0 (Some "mollie-unconfigured"))]).
Proof.
  intros w.
  refine (enabled_methods_need_an_api_key collaborators methodId (Some localeHook)
            listedMethods ctx0 "mollie-unconfigured" w _ _); reflexivity.
Defined.

Lemma enabled_methods_are_those_of_orders_witness :
  let w := shop "false" paidOrder addingItems in
  let run := getEnabledPaymentMethods collaborators methodId (Some localeHook)
               listedMethods ctx0 "mollie" w in
  exists methods key params listed,
    run.1.1 = inr methods
    /\ last run.2 = Some (MollieMethodsList key params)
    /\ params !! "resource" = Some "orders"
    /\ map mpm_code methods = map methodId listed.
Proof.
  intros w run.
  pose (methods := match run.1.1 with inr ms => ms | inl _ => [] end).
  destruct (enabled_methods_are_those_of_orders collaborators methodId
              (Some localeHook) listedMethods ctx0 "mollie" w methods run.2)
    as (key & params & listed & Hlast & Hres & _ & _ & _ & Hcodes).
  - reflexivity.
  - exists methods, key, params, listed. split; [reflexivity |]. by repeat split.
Defined.

End MollieMore.

(** * More on the promotion service *)
Module PromotionMore.
Import Promotions PromotionSpec.

Local Open Scope list_scope.

Lemma getAdjustmentOperationByCode_returned s type code m :
  getAdjustmentOperationByCode s type code = Returned m ->
  In m (availableFor s type) /\ po_code m = code.
Proof.
  unfold getAdjustmentOperationByCode, availableFor.
  destruct (List.find _ _) as [m' |] eqn:Hf; [| discriminate].
  intros [= <-]. apply find_some in Hf as [Hin Heq].
  by apply String.eqb_eq in Heq.
Qed.

Lemma getAdjustmentOperationByCode_thrown s type code e :
  getAdjustmentOperationByCode s type code = Thrown e ->
  e = AdjustmentOperationWithCodeNotFound code
  /\ forall m, In m (availableFor s type) -> po_code m <> code.
Proof.
  unfold getAdjustmentOperationByCode, availableFor.
  destruct (List.find _ _) as [m' |] eqn:Hf; [discriminate |].
  intros [= <-]. split; [done |]. intros m Hin.
  apply (find_none _ _ Hf) in Hin. by apply String.eqb_neq in Hin.
Qed.

Lemma parseOperationArgs_code s type input op :
  parseOperationArgs s type input = Returned op -> op_code op = in_code input.
Proof.
  unfold parseOperationArgs.
  destruct (getAdjustmentOperationByCode s type (in_code input)); [| discriminate].
  by intros [= <-].
Qed.

Lemma getProperty_cases own name :
  (forall type, own !! name = Some type -> getProperty own name = Declared type)
  /\ (own !! name = None -> In name objectPrototypeMembers ->
      getProperty own name = Inherited name)
  /\ (own !! name = None -> ~ In name objectPrototypeMembers ->
      getProperty own name = Undefined).
Proof.
  unfold getProperty. repeat split.
  - by intros type ->.
  - intros -> Hin.
    destruct (existsb _ _) eqn:Hex; [done |].
    assert (Hyes : existsb (String.eqb name) objectPrototypeMembers = true).
    { apply existsb_exists. exists name. split; [done | apply String.eqb_refl]. }
    congruence.
  - intros -> Hnin.
    destruct (existsb _ _) eqn:Hex; [| done].
    apply existsb_exists in Hex as (x & Hin & Heq).
    apply String.eqb_eq in Heq. by subst.
Qed.

(** X17.  An operation that [parseOperationArgs] returns has the code of the
    input and its arguments, by name and value and in order; its description
    is that of the configured operation of this code, and the type of each
    argument is what reading the property of its name in the arguments of that
    operation gives: the declared type, for an argument that the operation
    declares; for one that it does not declare, the member of
    [Object.prototype] of that name, when there is one, and otherwise nothing.
    An argument that the operation does not declare is kept. *)
Theorem parsed_operation_keeps_the_input s type input op :
  parseOperationArgs s type input = Returned op ->
  op_code op = in_code input
  /\ map arg_name (op_args op) = map in_arg_name (in_arguments input)
  /\ map arg_value (op_args op) = map in_arg_value (in_arguments input)
  /\ exists m,
      In m (availableFor s type)
      /\ po_code m = in_code input
      /\ op_description op = po_description m
      /\ forall a, In a (op_args op) ->
           (forall t, po_args m !! arg_name a = Some t -> arg_type a = Declared t)
           /\ (po_args m !! arg_name a = None ->
               In (arg_name a) objectPrototypeMembers ->
               arg_type a = Inherited (arg_name a))
           /\ (po_args m !! arg_name a = None ->
               ~ In (arg_name a) objectPrototypeMembers ->
               arg_type a = Undefined).
Proof.
  unfold parseOperationArgs.
  destruct (getAdjustmentOperationByCode s type (in_code input)) as [m | e] eqn:Hm;
    [| discriminate].
  intros [= <-].
  apply getAdjustmentOperationByCode_returned in Hm as [Hin Hcode].
  split; [done |].
  split; [cbn; by rewrite map_map |].
  split; [cbn; by rewrite map_map |].
  exists m. split; [done |]. split; [done |]. split; [done |].
  intros a Ha. cbn in Ha. apply in_map_iff in Ha as (x & <- & _).
  cbn [arg_name arg_type]. apply getProperty_cases.
Qed.

Lemma parseAll_thrown s type inputs e :
  parseAll s type inputs = Thrown e ->
  exists c,
    In c inputs
    /\ e = AdjustmentOperationWithCodeNotFound (in_code c)
    /\ forall m, In m (availableFor s type) -> po_code m <> in_code c.
Proof.
  induction inputs as [| c rest IH]; [discriminate |]. cbn [parseAll].
  unfold parseOperationArgs at 1.
  destruct (getAdjustmentOperationByCode s type (in_code c)) as [m | e'] eqn:Hm.
  - destruct (parseAll s type rest) as [ops | e']; [discriminate |].
    intros [= <-]. destruct (IH eq_refl) as (c' & Hin & He & Hno).
    exists c'. split; [by right | done].
  - intros [= <-]. apply getAdjustmentOperationByCode_thrown in Hm as [-> Hno].
    exists c. split; [by left | done].
Qed.

(** X18.  Parsing the operations of an input succeeds, with the codes of the
    input in order, exactly when each code is the code of an operation that
    is configured for the type. *)
Theorem parseAll_succeeds_iff_codes_are_known s type inputs :
  (exists ops, parseAll s type inputs = Returned ops
               /\ map op_code ops = map in_code inputs)
  <-> forall c, In c inputs ->
        exists m, In m (availableFor s type) /\ po_code m = in_code c.
Proof.
  split.
  - intros (ops & Hrun & _). revert ops Hrun.
    induction inputs as [| c rest IH]; [intros _ _ c [] |].
    cbn [parseAll]. unfold parseOperationArgs at 1.
    destruct (getAdjustmentOperationByCode s type (in_code c)) as [m | e] eqn:Hm;
      [| discriminate].
    destruct (parseAll s type rest) as [ops' | e]; [| discriminate].
    intros ops _ c' [<- | Hin].
    + apply getAdjustmentOperationByCode_returned in Hm. by exists m.
    + exact (IH ops' eq_refl c' Hin).
  - induction inputs as [| c rest IH]; [intros _; by exists [] |].
    intros Hall. destruct IH as (ops & Hrun & Hcodes).
    { intros c' Hin. apply Hall. by right. }
    destruct (parseOperationArgs s type c) as [op | e] eqn:Hop.
    + exists (op :: ops). cbn [parseAll]. rewrite Hop, Hrun. split; [done |].
      cbn. rewrite Hcodes. f_equal.
      exact (parseOperationArgs_code _ _ _ _ Hop).
    + exfalso. unfold parseOperationArgs in Hop.
      destruct (getAdjustmentOperationByCode s type (in_code c)) as [m | e'] eqn:Hm;
        [discriminate |].
      apply getAdjustmentOperationByCode_thrown in Hm as [_ Hno].
      destruct (Hall c (or_introl eq_refl)) as (m & Hin & Hcode).
      exact (Hno m Hin Hcode).
Qed.


(** ** The listing of the operations *)

(** X19.  [getAdjustmentOperations] lists the configured operations in
    order, by code, and every operation it lists for a type is accepted by
    [parseOperationArgs] for that type, whatever the arguments. *)
Theorem listed_operations_are_accepted s type arguments :
  let listed := match type with
                | condition => (getAdjustmentOperations s).1
                | action => (getAdjustmentOperations s).2
                end in
  map op_code listed = map po_code (availableFor s type)
  /\ forall op, In op listed ->
       exists parsed,
         parseOperationArgs s type
           {| in_code := op_code op; in_arguments := arguments |} = Returned parsed
         /\ op_code parsed = op_code op.
Proof.
  cbv zeta.
  assert (Hlisted : match type with
                    | condition => (getAdjustmentOperations s).1
                    | action => (getAdjustmentOperations s).2
                    end = map toAdjustmentOperation (availableFor s type)).
  { by destruct type. }
  rewrite Hlisted. split; [by rewrite map_map |].
  intros op Hin. apply in_map_iff in Hin as (m & <- & Hin).
  unfold parseOperationArgs, getAdjustmentOperationByCode. cbn [in_code].
  fold (availableFor s type).
  destruct (List.find _ _) as [m' |] eqn:Hf; [by eexists |].
  apply (find_none _ _ Hf) in Hin. cbn in Hin. by rewrite String.eqb_refl in Hin.
Qed.

(** X20.  The arguments that [getAdjustmentOperations] lists for an operation
    are exactly the entries of its declared arguments: each with its name and
    type, and without a value. *)
Theorem listed_arguments_are_the_declared_ones (source : PromotionOperation)
    (a : AdjustmentArg) :
  In a (op_args (toAdjustmentOperation source))
  <-> exists type,
        po_args source !! arg_name a = Some type
        /\ arg_type a = Declared type
        /\ arg_value a = None.
Proof.
  unfold toAdjustmentOperation. cbn [op_args]. rewrite in_map_iff. split.
  - intros ([n ty] & <- & Hin). exists ty. cbn. split; [| done].
    by apply list_elem_of_In, elem_of_map_to_list in Hin.
  - intros (ty & Hlook & Hty & Hval). exists (arg_name a, ty). split.
    + destruct a as [n t v]. cbn in *. by subst.
    + by apply list_elem_of_In, elem_of_map_to_list.
Qed.

(** ** The cache *)

(** X21.  [getActivePromotions] serves a non-empty cache as it is, without
    reading the table; with an empty cache it returns the enabled rows of the
    table, which it leaves as it is. *)
Theorem active_promotions_are_read_once s :
  (activePromotions s <> [] -> getActivePromotions s = (activePromotions s, s))
  /\ (activePromotions s = [] ->
      connection (getActivePromotions s).2 = connection s
      /\ forall q, q ∈ (getActivePromotions s).1 <-> enabledInStore s q).
Proof.
  unfold getActivePromotions. split.
  - destruct (activePromotions s) as [| x l] eqn:Hc; [intros H; by destruct H |].
    intros _. cbn. by rewrite Hc.
  - intros ->. split; [done |]. intros q. apply findEnabled_spec.
Qed.

(** ** Saving *)

Lemma save_stores e t :
  exists i, id (save e t).2 = Some i /\ rows (save e t).1 !! i = Some (save e t).2.
Proof.
  unfold save. destruct (id e) as [i |] eqn:Hid; cbn.
  - exists i. split; [done |]. apply lookup_insert_eq.
  - exists (nextId t). split; [done |]. apply lookup_insert_eq.
Qed.

Lemma save_wellKeyed e t : wellKeyed t -> wellKeyed (save e t).1.
Proof.
  intros Hwk i p. unfold save. destruct (id e) as [j |] eqn:Hid; cbn.
  - destruct (decide (j = i)) as [-> | Hne].
    + rewrite lookup_insert_eq. by intros [= <-].
    + rewrite lookup_insert_ne; [apply Hwk | done].
  - destruct (decide (nextId t = i)) as [<- | Hne].
    + rewrite lookup_insert_eq. by intros [= <-].
    + rewrite lookup_insert_ne; [apply Hwk | done].
Qed.

(** Saving, refreshing the cache and reading the saved row back. *)
Lemma saved_and_found entity s :
  (let '(t, saved) := save entity (connection s) in
   let s := withConnection s t in
   let s := updatePromotions s in
   (assertFoundRow (id saved) s, s))
  = (Returned (save entity (connection s)).2,
     updatePromotions (withConnection s (save entity (connection s)).1)).
Proof.
  destruct (save_stores entity (connection s)) as (i & Hid & Hrow).
  destruct (save entity (connection s)) as [t e]. cbn [fst snd] in *.
  unfold assertFoundRow, findOneRow. rewrite Hid. cbn. by rewrite Hrow.
Qed.

Section Methods.
Context {RequestContext : Type}.
Variable assignToChannels : Promotion -> RequestContext -> Promotion.
Variable patchEntity : Promotion -> UpdatePromotionInput -> Promotion.

(** What [createPromotion] does once both lists of operations are parsed. *)
Lemma createPromotion_parsed (ctx : RequestContext) input s cs acts :
  parseAll s condition (create_conditions input) = Returned cs ->
  parseAll s action (create_actions input) = Returned acts ->
  let entity :=
    assignToChannels
      {| id := None; name := create_name input; enabled := create_enabled input;
         conditions := cs; actions := acts; channels := [] |} ctx in
  createPromotion assignToChannels ctx input s
  = (Returned (save entity (connection s)).2,
     updatePromotions (withConnection s (save entity (connection s)).1)).
Proof.
  intros Hc Ha entity. unfold createPromotion. rewrite Hc, Ha.
  apply saved_and_found.
Qed.

Lemma createPromotion_cases (ctx : RequestContext) input s :
  (exists c e,
      createPromotion assignToChannels ctx input s = (Thrown e, s)
      /\ e = AdjustmentOperationWithCodeNotFound (in_code c)
      /\ ((In c (create_conditions input)
           /\ forall m, In m (availableConditions s) -> po_code m <> in_code c)
          \/ (In c (create_actions input)
              /\ forall m, In m (availableActions s) -> po_code m <> in_code c)))
  \/ (exists entity,
         createPromotion assignToChannels ctx input s
         = (Returned (save entity (connection s)).2,
            updatePromotions (withConnection s (save entity (connection s)).1))
         /\ exists cs acts,
             entity = assignToChannels
                        {| id := None; name := create_name input;
                           enabled := create_enabled input;
                           conditions := cs; actions := acts; channels := [] |} ctx).
Proof.
  destruct (parseAll s condition (create_conditions input)) as [cs | e] eqn:Hc.
  - destruct (parseAll s action (create_actions input)) as [acts | e] eqn:Ha.
    + right. eexists. split; [exact (createPromotion_parsed ctx input s cs acts Hc Ha) |].
      by exists cs, acts.
    + left. destruct (parseAll_thrown _ _ _ _ Ha) as (c & Hin & -> & Hno).
      exists c, (AdjustmentOperationWithCodeNotFound (in_code c)).
      split; [unfold createPromotion; by rewrite Hc, Ha |]. split; [done |].
      right. by split.
  - left. destruct (parseAll_thrown _ _ _ _ Hc) as (c & Hin & -> & Hno).
    exists c, (AdjustmentOperationWithCodeNotFound (in_code c)).
    split; [unfold createPromotion; by rewrite Hc |]. split; [done |].
    left. by split.
Qed.

(** X22.  [createPromotion] throws only for a condition or an action whose
    code is not configured, and then nothing is saved: the table and the cache
    are as before. *)
Theorem createPromotion_fails_only_on_an_unknown_code
    (ctx : RequestContext) input s e s' :
  createPromotion assignToChannels ctx input s = (Thrown e, s') ->
  s' = s
  /\ exists c,
      e = AdjustmentOperationWithCodeNotFound (in_code c)
      /\ ((In c (create_conditions input)
           /\ forall m, In m (availableConditions s) -> po_code m <> in_code c)
          \/ (In c (create_actions input)
              /\ forall m, In m (availableActions s) -> po_code m <> in_code c)).
Proof.
  intros Hrun.
  destruct (createPromotion_cases ctx input s)
    as [(c & e' & Hrun' & He & Hc) | (entity & Hrun' & _)].
  - rewrite Hrun' in Hrun. injection Hrun as <- <-. split; [done |]. by exists c.
  - rewrite Hrun' in Hrun. discriminate.
Qed.

(** X23.  The promotion that [createPromotion] returns is a row of the table,
    under its own id; it is in the cache exactly when it is enabled; and a
    table whose rows all carry the id they are stored under stays so. *)
Theorem created_promotion_is_stored_and_cached
    (ctx : RequestContext) input s p s' :
  createPromotion assignToChannels ctx input s = (Returned p, s') ->
  (exists i, id p = Some i /\ rows (connection s') !! i = Some p)
  /\ (p ∈ activePromotions s' <-> enabled p = true)
  /\ (wellKeyed (connection s) -> wellKeyed (connection s')).
Proof.
  intros Hrun.
  destruct (createPromotion_cases ctx input s)
    as [(c & e' & Hrun' & _) | (entity & Hrun' & _)].
  { rewrite Hrun' in Hrun. discriminate. }
  rewrite Hrun' in Hrun. injection Hrun as <- <-.
  destruct (save_stores entity (connection s)) as (i & Hid & Hrow).
  split; [by exists i |]. split.
  - rewrite updatePromotions_spec. split.
    + by intros (j & _ & Hen).
    + intros Hen. by exists i.
  - apply save_wellKeyed.
Qed.

(** X24.  When the assignment to channels keeps the id of the entity,
    [createPromotion] inserts one row, under the next id of the table, which
    moves on by one; every other row is as before. *)
Theorem createPromotion_inserts_one_row (ctx : RequestContext) input s p s' :
  (forall e, id (assignToChannels e ctx) = id e) ->
  createPromotion assignToChannels ctx input s = (Returned p, s') ->
  id p = Some (nextId (connection s))
  /\ nextId (connection s') = N.succ (nextId (connection s))
  /\ forall j, j <> nextId (connection s) ->
       rows (connection s') !! j = rows (connection s) !! j.
Proof.
  intros Hassign Hrun.
  destruct (createPromotion_cases ctx input s)
    as [(c & e' & Hrun' & _) | (entity & Hrun' & cs & acts & Hentity)].
  { rewrite Hrun' in Hrun. discriminate. }
  rewrite Hrun' in Hrun. injection Hrun as <- <-.
  assert (Hid : id entity = None) by (subst entity; by rewrite Hassign).
  unfold save. rewrite Hid. cbn. repeat split.
  intros j Hne. by rewrite lookup_insert_ne.
Qed.

(** [updatePromotion] *)
Lemma updatePromotion_cases (ctx : RequestContext) input s :
  updatePromotion patchEntity ctx input s
  = (Thrown (EntityWithIdNotFound "AdjustmentSource" (update_id input)), s)
    /\ rows (connection s) !! update_id input = None
  \/ (exists c,
         updatePromotion patchEntity ctx input s
         = (Thrown (AdjustmentOperationWithCodeNotFound (in_code c)), s)
         /\ ((exists cs, update_conditions input = Some cs /\ In c cs
                         /\ forall m, In m (availableConditions s) ->
                                      po_code m <> in_code c)
             \/ (exists acts, update_actions input = Some acts /\ In c acts
                              /\ forall m, In m (availableActions s) ->
                                           po_code m <> in_code c)))
  \/ (exists entity,
         updatePromotion patchEntity ctx input s
         = (Returned (save entity (connection s)).2,
            updatePromotions (withConnection s (save entity (connection s)).1))
         /\ exists row,
             rows (connection s) !! update_id input = Some row
             /\ id entity = id (patchEntity row input)
             /\ name entity = name (patchEntity row input)
             /\ enabled entity = enabled (patchEntity row input)).
Proof.
  unfold updatePromotion, findOneRow.
  destruct (rows (connection s) !! update_id input) as [row |] eqn:Hrow;
    [| left; by split].
  right.
  destruct (update_conditions input) as [cs |] eqn:Hcs.
  - destruct (parseAll s condition cs) as [cs' | e] eqn:Hc.
    + destruct (update_actions input) as [acts |] eqn:Hacts.
      * destruct (parseAll s action acts) as [acts' | e] eqn:Ha.
        -- right.
           exists (withActions (withConditions (patchEntity row input) cs') acts').
           split; [apply saved_and_found | by exists row].
        -- left. destruct (parseAll_thrown _ _ _ _ Ha) as (c & Hin & -> & Hno).
           exists c. split; [done |]. right. by exists acts.
      * right. exists (withConditions (patchEntity row input) cs').
        split; [apply saved_and_found | by exists row].
    + left. destruct (parseAll_thrown _ _ _ _ Hc) as (c & Hin & -> & Hno).
      exists c. split; [done |]. left. by exists cs.
  - destruct (update_actions input) as [acts |] eqn:Hacts.
    + destruct (parseAll s action acts) as [acts' | e] eqn:Ha.
      * right. exists (withActions (patchEntity row input) acts').
        split; [apply saved_and_found | by exists row].
      * left. destruct (parseAll_thrown _ _ _ _ Ha) as (c & Hin & -> & Hno).
        exists c. split; [done |]. right. by exists acts.
    + right. exists (patchEntity row input).
      split; [apply saved_and_found | by exists row].
Qed.

(** X25.  When [updatePromotion] throws, nothing is saved: the table and the
    cache are as before; the error is the missing entity, when the id has no
    row, or an operation code that is not configured. *)
Theorem updatePromotion_fails_without_saving (ctx : RequestContext) input s e s' :
  updatePromotion patchEntity ctx input s = (Thrown e, s') ->
  s' = s
  /\ ((e = EntityWithIdNotFound "AdjustmentSource" (update_id input)
       /\ rows (connection s) !! update_id input = None)
      \/ exists c, e = AdjustmentOperationWithCodeNotFound (in_code c)).
Proof.
  intros Hrun.
  destruct (updatePromotion_cases ctx input s)
    as [[Hrun' Hnone] | [(c & Hrun' & _) | (entity & Hrun' & _)]];
    rewrite Hrun' in Hrun; [| | discriminate].
  - injection Hrun as <- <-. split; [done |]. by left.
  - injection Hrun as <- <-. split; [done |]. right. by exists c.
Qed.

(** X26.  The promotion that [updatePromotion] returns is a row of the table,
    under its own id; it is in the cache exactly when it is enabled, so that a
    promotion that was disabled has left the cache; and a table whose rows all
    carry the id they are stored under stays so. *)
Theorem updated_promotion_is_stored_and_cached
    (ctx : RequestContext) input s p s' :
  updatePromotion patchEntity ctx input s = (Returned p, s') ->
  (exists i, id p = Some i /\ rows (connection s') !! i = Some p)
  /\ (p ∈ activePromotions s' <-> enabled p = true)
  /\ (wellKeyed (connection s) -> wellKeyed (connection s')).
Proof.
  intros Hrun.
  destruct (updatePromotion_cases ctx input s)
    as [[Hrun' Hnone] | [(c & Hrun' & _) | (entity & Hrun' & _)]];
    rewrite Hrun' in Hrun; [discriminate | discriminate |].
  injection Hrun as <- <-.
  destruct (save_stores entity (connection s)) as (i & Hid & Hrow).
  split; [by exists i |]. split.
  - rewrite updatePromotions_spec. split.
    + by intros (j & _ & Hen).
    + intros Hen. by exists i.
  - apply save_wellKeyed.
Qed.

(** X27.  When patching keeps the id of the entity and every row carries the
    id it is stored under, [updatePromotion] writes the row of the given id
    and no other, and the next id of the table is as before. *)
Theorem updatePromotion_touches_one_row (ctx : RequestContext) input s p s' :
  (forall row, id (patchEntity row input) = id row) ->
  wellKeyed (connection s) ->
  updatePromotion patchEntity ctx input s = (Returned p, s') ->
  id p = Some (update_id input)
  /\ nextId (connection s') = nextId (connection s)
  /\ forall j, j <> update_id input ->
       rows (connection s') !! j = rows (connection s) !! j.
Proof.
  intros Hpatch Hwk Hrun.
  destruct (updatePromotion_cases ctx input s)
    as [[Hrun' Hnone] | [(c & Hrun' & _)
                        | (entity & Hrun' & row & Hrow & Hid & _)]];
    rewrite Hrun' in Hrun; [discriminate | discriminate |].
  injection Hrun as <- <-.
  rewrite Hpatch, (Hwk _ _ Hrow) in Hid.
  unfold save. rewrite Hid. cbn [fst snd connection updatePromotions
    withActivePromotions withConnection rows nextId].
  split; [done |]. split; [done |].
  intros j Hne. by rewrite lookup_insert_ne.
Qed.

End Methods.

(** ** The theorems on the example configuration *)

Import Example.

Lemma parsed_operation_keeps_the_input_witness :
  let input := {| in_code := "minimum_order_amount";
                  in_arguments :=
                    [ {| in_arg_name := "amount"; in_arg_value := Some "1000" |};
                      {| in_arg_name := "currency"; in_arg_value := Some "EUR" |};
                      {| in_arg_name := "constructor"; in_arg_value := None |} ] |} in
  exists op,
    parseOperationArgs service condition input = Returned op
    /\ map arg_name (op_args op) = ["amount"; "currency"; "constructor"]
    /\ map arg_type (op_args op)
       = [Declared "money"; Undefined; Inherited "constructor"].
Proof.
  intros input.
  pose (op := match parseOperationArgs service condition input with
              | Returned op => op
              | Thrown _ => toAdjustmentOperation minimumOrderAmount
              end).
  exists op. split; [reflexivity |]. split.
  - refine (proj1 (proj2 (parsed_operation_keeps_the_input service condition
                            input op _))). reflexivity.
  - reflexivity.
Defined.

Lemma parseAll_succeeds_iff_codes_are_known_witness :
  exists ops,
    parseAll service condition (create_conditions blackFriday) = Returned ops
    /\ map op_code ops = ["minimum_order_amount"].
Proof.
  refine (proj2 (parseAll_succeeds_iff_codes_are_known service condition
                   (create_conditions blackFriday)) _).
  intros c [<- | []]. exists minimumOrderAmount. split; [left |]; reflexivity.
Defined.

Lemma listed_operations_are_accepted_witness :
  exists parsed,
    parseOperationArgs service action
      {| in_code := "order_percentage_discount"; in_arguments := [] |}
    = Returned parsed
    /\ op_code parsed = "order_percentage_discount".
Proof.
  refine (proj2 (listed_operations_are_accepted service action [])
            (toAdjustmentOperation orderPercentageDiscount) _).
  left. reflexivity.
Defined.

Lemma listed_arguments_are_the_declared_ones_witness :
  In {| arg_name := "amount"; arg_type := Declared "money"; arg_value := None |}
     (op_args (toAdjustmentOperation minimumOrderAmount)).
Proof.
  refine (proj2 (listed_arguments_are_the_declared_ones minimumOrderAmount _) _).
  exists "money". repeat split.
Defined.

Lemma active_promotions_are_read_once_witness :
  getActivePromotions service = ([summerSale], service).
Proof.
  refine (proj1 (active_promotions_are_read_once service) _). discriminate.
Defined.

Lemma createPromotion_fails_only_on_an_unknown_code_witness :
  (createPromotion toDefaultChannel tt unknownAction service).2 = service.
Proof.
  refine (proj1 (createPromotion_fails_only_on_an_unknown_code toDefaultChannel tt
                   unknownAction service
                   (AdjustmentOperationWithCodeNotFound "free_shipping")
                   (createPromotion toDefaultChannel tt unknownAction service).2 _)).
  vm_compute. reflexivity.
Defined.

Lemma service_wellKeyed : wellKeyed (connection service).
Proof.
  change (map_Forall (fun i p => id p = Some i) (rows (connection service))).
  apply map_Forall_insert_2; [reflexivity |].
  apply map_Forall_insert_2; [reflexivity |].
  apply map_Forall_empty.
Defined.

Lemma created_promotion_is_stored_and_cached_witness :
  let run := createPromotion toDefaultChannel tt blackFriday service in
  exists p,
    run.1 = Returned p
    /\ rows (connection run.2) !! 3%N = Some p
    /\ p ∈ activePromotions run.2.
Proof.
  intros run.
  pose (p := match run.1 with Returned p => p | Thrown _ => summerSale end).
  destruct (created_promotion_is_stored_and_cached toDefaultChannel tt blackFriday
              service p run.2) as (_ & Hcache & _).
  - vm_compute. reflexivity.
  - exists p. split; [reflexivity |]. split; [vm_compute; reflexivity |].
    apply Hcache. reflexivity.
Defined.

Lemma createPromotion_inserts_one_row_witness :
  let run := createPromotion toDefaultChannel tt blackFriday service in
  nextId (connection run.2) = 4%N
  /\ rows (connection run.2) !! 1%N = Some summerSale.
Proof.
  intros run.
  pose (p := match run.1 with Returned p => p | Thrown _ => summerSale end).
  destruct (createPromotion_inserts_one_row toDefaultChannel tt blackFriday
              service p run.2) as (_ & Hnext & Hrows).
  - intros e. reflexivity.
  - vm_compute. reflexivity.
  - split; [exact Hnext |]. rewrite Hrows; [reflexivity | discriminate].
Defined.

Lemma updatePromotion_fails_without_saving_witness :
  (updatePromotion patch tt (disable 9%N) service).2 = service.
Proof.
  refine (proj1 (updatePromotion_fails_without_saving patch tt (disable 9%N) service
                   (EntityWithIdNotFound "AdjustmentSource" 9%N)
                   (updatePromotion patch tt (disable 9%N) service).2 _)).
  vm_compute. reflexivity.
Defined.

Lemma updated_promotion_is_stored_and_cached_witness :
  let run := updatePromotion patch tt (disable 1%N) service in
  exists p,
    run.1 = Returned p
    /\ enabled p = false
    /\ ~ p ∈ activePromotions run.2.
Proof.
  intros run.
  pose (p := match run.1 with Returned p => p | Thrown _ => summerSale end).
  destruct (updated_promotion_is_stored_and_cached patch tt (disable 1%N)
              service p run.2) as (_ & Hcache & _).
  - vm_compute. reflexivity.
  - exists p. split; [reflexivity |]. split; [reflexivity |].
    intros Hin. apply Hcache in Hin. discriminate.
Defined.

Lemma updatePromotion_touches_one_row_witness :
  let run := updatePromotion patch tt (disable 1%N) service in
  nextId (connection run.2) = 3%N
  /\ rows (connection run.2) !! 2%N = Some oldSale.
Proof.
  intros run.
  pose (p := match run.1 with Returned p => p | Thrown _ => summerSale end).
  destruct (updatePromotion_touches_one_row patch tt (disable 1%N) service p run.2)
    as (_ & Hnext & Hrows).
  - intros row. reflexivity.
  - exact service_wellKeyed.
  - vm_compute. reflexivity.
  - split; [exact Hnext |]. rewrite Hrows; [reflexivity | discriminate].
Defined.

End PromotionMore.
